(** * AI meeting assistant: a shallow embedding of the request/response pipeline

    The development follows the source files of the repository:

    - [types.ts]                  the status enumeration and the transcript segment,
    - [services/geminiService.ts] [blobToBase64], [transcribeAudio], [summarizeText],
    - [hooks/useAudioRecorder.ts] [startRecording], [stopRecording] and the two
                                  listeners of the media recorder,
    - [App.tsx]                   [formatTranscript], [resetState],
                                  [handleProcessAudio] and the render condition.

    JavaScript strings are kept as byte strings holding their UTF-8 encoding;
    the code only concatenates, compares and splits them at ASCII characters.
    Asynchronous functions are functions into a writer/exception monad: the
    value is the list of effects performed, in order, together with how the
    promise settles. *)

From Stdlib Require Import String Ascii List Bool Arith NArith Lia.
From Stdlib.Strings Require Import Byte.
Import ListNotations.
Local Open Scope string_scope.
Set Warnings "-register-all".

(** ** JavaScript values and built-ins used by the code *)
Module JS.

(** The line feed of the template literals ['\n']. *)
Definition LF : string := String (ascii_of_nat 10) EmptyString.

(** [Array.prototype.join] on an array of strings, as ECMAScript runs it: a
    result string grown from left to right, the separator put before every
    element but the first. *)
Definition join_step (sep : string) (acc : nat * string) (x : string) : nat * string :=
  let (k, R) := acc in
  (S k, if Nat.eqb k 0 then R ++ x else R ++ sep ++ x).

Definition join (sep : string) (xs : list string) : string :=
  snd (fold_left (join_step sep) xs (0, "")).

(** What the loop of [join] appends once it is past the first element. *)
Fixpoint followers (sep : string) (xs : list string) : string :=
  match xs with
  | [] => ""
  | x :: rest => sep ++ x ++ followers sep rest
  end.

(** [String.prototype.split] at a one-character separator. *)
Fixpoint split (sep : ascii) (s : string) : list string :=
  match s with
  | EmptyString => [""]
  | String c rest =>
      if Ascii.eqb c sep then "" :: split sep rest
      else match split sep rest with
           | [] => [String c ""]
           | w :: ws => String c w :: ws
           end
  end.

(** Truthiness of a string: only the empty string is falsy. *)
Definition truthy (s : string) : bool := negb (s =? "").

(** A thrown value: an [Error] instance with its message, or anything else
    (an event object, a string, ...). [instanceof Error] tells them apart. *)
Inductive Thrown : Type :=
| ErrorObject (message : string)
| OtherValue (tag : string).

(** How a call or a promise completes. *)
Inductive Completion (A : Type) : Type :=
| Returns (a : A)
| Throws (e : Thrown).
Arguments Returns {A} a.
Arguments Throws {A} e.

(** Values [JSON.parse] can return. A number keeps its literal: the code
    never computes with one. An object keeps its members in source order,
    duplicates included; a property read sees the last one. *)
Inductive Value : Type :=
| JNull
| JBool (b : bool)
| JNumber (literal : string)
| JString (s : string)
| JArray (elems : list Value)
| JObject (members : list (string * Value)).

Fixpoint getProp (key : string) (members : list (string * Value)) : option Value :=
  match members with
  | [] => None
  | (k, v) :: rest =>
      match getProp key rest with
      | Some v' => Some v'
      | None => if k =? key then Some v else None
      end
  end.

(** A [Blob]: its bytes and its MIME type. *)
Record Blob : Type := mkBlob { blob_bytes : list byte; blob_type : string }.

Definition size (b : Blob) : nat := length (blob_bytes b).

(** [new Blob(parts, { type })] for parts that are blobs. *)
Definition newBlob (parts : list Blob) (type : string) : Blob :=
  mkBlob (concat (map blob_bytes parts)) type.

End JS.
Import JS.

(** ** types.ts *)
Module Types.

Inductive Status : Type := IDLE | RECORDING | PROCESSING | DONE.

Record TranscriptSegment : Type := mkSegment {
  speaker : option string;
  text : string;
  startTime : string;
  endTime : string
}.

Definition Transcript : Type := list TranscriptSegment.

(** The values of [JSON.parse] that inhabit [TranscriptSegment[]]. The cast
    [jsonResponse as TranscriptSegment[]] checks nothing at run time; this is
    the reading of a value at that type, used where the code goes on to use
    the fields. *)
Definition asString (v : option Value) : option string :=
  match v with
  | Some (JString s) => Some s
  | _ => None
  end.

Definition asSegment (v : Value) : option TranscriptSegment :=
  match v with
  | JObject ms =>
      match asString (getProp "text" ms),
            asString (getProp "startTime" ms),
            asString (getProp "endTime" ms) with
      | Some t, Some st, Some et =>
          match getProp "speaker" ms with
          | None => Some (mkSegment None t st et)
          | Some (JString sp) => Some (mkSegment (Some sp) t st et)
          | Some _ => None
          end
      | _, _, _ => None
      end
  | _ => None
  end.

Fixpoint asSegments (vs : list Value) : option Transcript :=
  match vs with
  | [] => Some []
  | v :: rest =>
      match asSegment v, asSegments rest with
      | Some s, Some t => Some (s :: t)
      | _, _ => None
      end
  end.

Definition asTranscript (v : Value) : option Transcript :=
  match v with
  | JArray vs => asSegments vs
  | _ => None
  end.

End Types.
Import Types.

(** ** The platform: file reader, hosted model, JSON parser *)
Module Platform.

(** The response schema language of the model API, as far as
    [transcriptSchema] uses it: [Type.STRING], [Type.ARRAY], [Type.OBJECT]. *)
Inductive Schema : Type :=
| STRING (description : string)
| ARRAY (items : Schema)
| OBJECT (properties : list (string * Schema)) (required : list string).

Inductive Part : Type :=
| TextPart (text : string)
| InlineData (mimeType : string) (data : option string).

Inductive Contents : Type :=
| Parts (parts : list Part)
| Prompt (prompt : string).

(** The [config] object of a request; an absent field is [None]. The
    temperature [0.3] is kept as the fraction [(3, 10)]. *)
Record Config : Type := mkConfig {
  responseMimeType : option string;
  responseSchema : option Schema;
  temperature : option (nat * nat)
}.

Record Request : Type := mkRequest {
  model : string;
  contents : Contents;
  config : Config
}.

Record GenerateContentResponse : Type := mkResponse { response_text : string }.

(** What the code cannot decide itself: the data URL the file reader
    produces for a blob (or the error event it reports), the answer of the
    hosted model to a request (or the rejection of the call), and
    [JSON.parse] (or the [SyntaxError] it throws). *)
Record World : Type := mkWorld {
  readAsDataURL : Blob -> Completion string;
  generateContent : Request -> Completion GenerateContentResponse;
  JSON_parse : string -> Completion Value
}.

End Platform.
Import Platform.

(** ** Effects and the monad of asynchronous functions *)
Module Async.

(** What a function of the application does to the outside, in the order
    it does it: reading a blob, one request to the hosted model, a console
    message, an alert, and the calls of React state setters. *)
Inductive Effect : Type :=
| FileRead (b : Blob)
| NetworkCall (req : Request)
| ConsoleError (label : string) (err : Thrown)
| Alert (msg : string)
| SetStatus (s : Status)
| SetTranscript (t : Transcript)
| SetSummary (s : string)
| SetError (s : string)
| SetCopiedTranscript (b : bool)
| SetCopiedSummary (b : bool).

(** How an asynchronous function ends: the promise resolves, or rejects
    with a thrown value, or the run has left the TypeScript types of the
    source (a value cast to a type it does not inhabit was used at that
    type); nothing is said about a run from there on, and no [catch] of the
    model resumes it. *)
Inductive Result (A : Type) : Type :=
| Ok (a : A)
| Fails (e : Thrown)
| IllTyped.
Arguments Ok {A} a.
Arguments Fails {A} e.
Arguments IllTyped {A}.

Definition M (A : Type) : Type := list Effect * Result A.

Definition ret {A} (a : A) : M A := ([], Ok a).

Definition bind {A B} (m : M A) (k : A -> M B) : M B :=
  match m with
  | (tr, Ok a) => let (tr', r) := k a in (tr ++ tr', r)%list
  | (tr, Fails e) => (tr, Fails e)
  | (tr, IllTyped) => (tr, IllTyped)
  end.

Definition emit (e : Effect) : M unit := ([e], Ok tt).

Definition throw {A} (e : Thrown) : M A := ([], Fails e).

(** [try { body } catch (err) { handler }]. *)
Definition try_catch {A} (body : M A) (handler : Thrown -> M A) : M A :=
  match body with
  | (tr, Fails e) => let (tr', r) := handler e in (tr ++ tr', r)%list
  | _ => body
  end.

(** A synchronous call or an awaited promise of the platform. *)
Definition complete {A} (c : Completion A) : M A :=
  match c with
  | Returns a => ret a
  | Throws e => throw e
  end.

(** Reading a cast value at its type. *)
Definition typed {A} (o : option A) : M A :=
  match o with
  | Some a => ret a
  | None => ([], IllTyped)
  end.

Definition trace {A} (m : M A) : list Effect := fst m.
Definition result {A} (m : M A) : Result A := snd m.

End Async.
Import Async.

Declare Scope async_scope.
Delimit Scope async_scope with async.
Notation "x <- m ;; k" := (bind m (fun x => k))
  (at level 61, m at next level, right associativity) : async_scope.
Notation "m ;; k" := (bind m (fun _ => k))
  (at level 61, right associativity) : async_scope.

(** ** services/geminiService.ts *)
Module GeminiService.
Local Open Scope async_scope.

Definition transcriptionModel : string := "gemini-2.5-flash".
Definition summarizationModel : string := "gemini-2.5-flash".

(** [blobToBase64]: the promise rejects with the reader's error event, or
    resolves with [reader.result.split(',')[1]], which is [undefined] for a
    result without a comma. *)
Definition blobToBase64 (W : World) (blob : Blob) : M (option string) :=
  emit (FileRead blob) ;;
  url <- complete (readAsDataURL W blob) ;;
  ret (nth_error (split "," url) 1).

(** [transcriptSchema], its [items] object named apart. *)
Definition segmentSchema : Schema :=
  OBJECT
    [ ("speaker",
       STRING "The identified speaker, e.g., 'ผู้พูด 1', 'ผู้พูด 2'. If speaker cannot be identified, leave it empty.");
      ("text", STRING "The transcribed text for this segment.");
      ("startTime", STRING "The start time of the segment in HH:MM:SS format.");
      ("endTime", STRING "The end time of the segment in HH:MM:SS format.") ]
    [ "text"; "startTime"; "endTime" ].

Definition transcriptSchema : Schema := ARRAY segmentSchema.

Definition transcriptionInstruction : string :=
  "โปรดถอดเสียงไฟล์เสียงนี้เป็นข้อความแบบเต็มพร้อมระบุช่วงเวลาเริ่มต้นและสิ้นสุดของแต่ละประโยคหรือส่วนของคำพูดที่สำคัญ และระบุผู้พูดถ้าทำได้ (เช่น 'ผู้พูด 1', 'ผู้พูด 2') จัดรูปแบบผลลัพธ์เป็น JSON ตาม Schema ที่ให้มา".

Definition transcriptionRequest (audioBlob : Blob) (base64Audio : option string) : Request :=
  let audioPart := InlineData (blob_type audioBlob) base64Audio in
  let textPart := TextPart transcriptionInstruction in
  mkRequest transcriptionModel
    (Parts [textPart; audioPart])
    (mkConfig (Some "application/json") (Some transcriptSchema) None).

Definition transcriptionFailedMessage : string :=
  "ไม่สามารถถอดเสียงได้ อาจเกิดจากไฟล์เสียงไม่ชัดเจนหรือมีข้อผิดพลาดในการเชื่อมต่อ โปรดลองอีกครั้ง".

(** [transcribeAudio]. The value returned is the parsed response itself:
    the cast to [TranscriptSegment[]] is erased at run time. *)
Definition transcribeAudio (W : World) (audioBlob : Blob) : M Value :=
  try_catch
    (base64Audio <- blobToBase64 W audioBlob ;;
     let request := transcriptionRequest audioBlob base64Audio in
     emit (NetworkCall request) ;;
     response <- complete (generateContent W request) ;;
     jsonResponse <- complete (JSON_parse W (response_text response)) ;;
     ret jsonResponse)
    (fun error =>
       emit (ConsoleError "Error transcribing audio:" error) ;;
       throw (ErrorObject transcriptionFailedMessage)).

Definition emptySummaryPlaceholder : string := "ไม่มีข้อความให้สรุป".

Definition summarizationFailedMessage : string :=
  "ไม่สามารถสร้างสรุปได้ โปรดลองอีกครั้ง".

(** The two halves of the prompt template literal, around
    [${textToSummarize}]; the indentation of the source is part of it. *)
Definition promptBefore : string :=
  LF ++
  "        คุณคือผู้ช่วยประชุมมืออาชีพ หน้าที่ของคุณคือการสรุปข้อความที่ถอดเสียงจากการประชุม" ++ LF ++
  "        โปรดอ่านข้อความต่อไปนี้และสรุปเป็นประเด็นสำคัญ (key takeaways) ในรูปแบบ bullet points ที่ชัดเจนและกระชับเป็นภาษาไทย" ++ LF ++
  LF ++
  "        ข้อความที่จะสรุป:" ++ LF ++
  "        ---" ++ LF ++
  "        ".

Definition promptAfter : string :=
  LF ++
  "        ---" ++ LF ++
  LF ++
  "        กรุณาสร้างสรุปการประชุม:" ++ LF ++
  "        ".

Definition textToSummarize (transcript : Transcript) : string :=
  join LF (map text transcript).

Definition summarizationRequest (transcript : Transcript) : Request :=
  let prompt := promptBefore ++ textToSummarize transcript ++ promptAfter in
  mkRequest summarizationModel (Prompt prompt) (mkConfig None None (Some (3, 10))).

(** [summarizeText]. An array is truthy, so [!transcript] is false on every
    value of the parameter's type and the guard is the length test. *)
Definition summarizeText (W : World) (transcript : Transcript) : M string :=
  if Nat.eqb (length transcript) 0 then ret emptySummaryPlaceholder
  else
    let request := summarizationRequest transcript in
    try_catch
      (emit (NetworkCall request) ;;
       response <- complete (generateContent W request) ;;
       ret (response_text response))
      (fun error =>
         emit (ConsoleError "Error summarizing text:" error) ;;
         throw (ErrorObject summarizationFailedMessage)).

End GeminiService.
Import GeminiService.

(** ** App.tsx *)
Module App.
Local Open Scope async_scope.

(** One line of the formatted transcript. [segment.speaker ? ... : ''] is a
    truthiness test: an absent speaker and an empty one both give no label. *)
Definition formatSegment (segment : TranscriptSegment) : string :=
  let speakerLabel :=
    match speaker segment with
    | Some sp => if truthy sp then sp ++ ": " else ""
    | None => ""
    end in
  "[" ++ startTime segment ++ " - " ++ endTime segment ++ "] " ++ speakerLabel ++ text segment.

Definition formatTranscript (segments : Transcript) (forFile : bool) : string :=
  let separator := if forFile then LF else LF ++ LF in
  join separator (map formatSegment segments).

(** The argument of [copyToClipboard] and [handleExport]: an array of
    segments or a string, with the literal that names which. *)
Inductive Content : Type :=
| ArrayContent (t : Transcript)
| StringContent (s : string).

Inductive ContentType : Type := transcript_type | summary_type.

(** [textToCopy] and [textToExport]; [content as string] leaves the content as it is. *)
Definition textToCopy (content : Content) (type : ContentType) : Content :=
  match type, content with
  | transcript_type, ArrayContent t => StringContent (formatTranscript t false)
  | _, _ => content
  end.

Definition textToExport (content : Content) (type : ContentType) : Content :=
  match type, content with
  | transcript_type, ArrayContent t => StringContent (formatTranscript t true)
  | _, _ => content
  end.

(** The component's state: one field per [useState]. *)
Record AppState : Type := mkApp {
  status : Status;
  transcript : Transcript;
  summary : string;
  error : string;
  copiedTranscript : bool;
  copiedSummary : bool
}.

Definition initialApp : AppState := mkApp IDLE [] "" "" false false.

(** A setter call replaces its field; the other effects leave the state alone. *)
Definition apply (s : AppState) (e : Effect) : AppState :=
  match e with
  | SetStatus x => mkApp x (transcript s) (summary s) (error s) (copiedTranscript s) (copiedSummary s)
  | SetTranscript x => mkApp (status s) x (summary s) (error s) (copiedTranscript s) (copiedSummary s)
  | SetSummary x => mkApp (status s) (transcript s) x (error s) (copiedTranscript s) (copiedSummary s)
  | SetError x => mkApp (status s) (transcript s) (summary s) x (copiedTranscript s) (copiedSummary s)
  | SetCopiedTranscript x => mkApp (status s) (transcript s) (summary s) (error s) x (copiedSummary s)
  | SetCopiedSummary x => mkApp (status s) (transcript s) (summary s) (error s) (copiedTranscript s) x
  | FileRead _ | NetworkCall _ | ConsoleError _ _ | Alert _ => s
  end.

Definition applyAll (s : AppState) (tr : list Effect) : AppState := fold_left apply tr s.

Definition resetState : M unit :=
  emit (SetTranscript []) ;;
  emit (SetSummary "") ;;
  emit (SetError "") ;;
  emit (SetCopiedTranscript false) ;;
  emit (SetCopiedSummary false) ;;
  emit (SetStatus IDLE).

Definition noTranscriptSummary : string :=
  "ไม่สามารถสร้างสรุปได้เนื่องจากไม่มีข้อความที่ถอดเสียง".

Definition unknownErrorMessage : string := "เกิดข้อผิดพลาดที่ไม่รู้จัก".

Definition processingErrorPrefix : string := "เกิดข้อผิดพลาดระหว่างการประมวลผล: ".

(** [handleProcessAudio]. It reads no state, it only calls setters and the
    two services, so a run is the list of its effects. The result of
    [transcribeAudio] is read at [TranscriptSegment[]] where the code first
    uses it at that type; an array is truthy, so the guard of the branch is
    the length test. A run on a value that is not of that type is followed
    in [Untyped.handleProcessAudio]. *)
Definition handleProcessAudio (W : World) (blob : Blob) : M unit :=
  resetState ;;
  emit (SetStatus PROCESSING) ;;
  try_catch
    (jsonResponse <- transcribeAudio W blob ;;
     transcriptResult <- typed (asTranscript jsonResponse) ;;
     emit (SetTranscript transcriptResult) ;;
     (if Nat.ltb 0 (length transcriptResult) then
        summaryResult <- summarizeText W transcriptResult ;;
        emit (SetSummary summaryResult)
      else
        emit (SetSummary noTranscriptSummary)) ;;
     emit (SetStatus DONE))
    (fun err =>
       emit (ConsoleError "" err) ;;
       let errorMessage :=
         match err with
         | ErrorObject message => message
         | OtherValue _ => unknownErrorMessage
         end in
       emit (SetError (processingErrorPrefix ++ errorMessage)) ;;
       emit (SetStatus IDLE)).

(** The state a run leaves when it starts from [s]. *)
Definition afterRun (W : World) (blob : Blob) (s : AppState) : AppState :=
  applyAll s (trace (handleProcessAudio W blob)).

(** The render condition of the result cards:
    [status === Status.DONE && transcript.length > 0]. *)
Definition resultsShown (s : AppState) : option (Transcript * string) :=
  match status s with
  | DONE => if Nat.ltb 0 (length (transcript s)) then Some (transcript s, summary s) else None
  | _ => None
  end.

(** [{error && <ErrorDisplay message={error} />}]. *)
Definition errorShown (s : AppState) : option string :=
  if truthy (error s) then Some (error s) else None.

End App.
Import App.

(** ** hooks/useAudioRecorder.ts *)
Module AudioRecorder.

(** [MediaRecorder.state], without the paused state the code never enters. *)
Inductive RecordingState : Type := inactive | recording.

(** A media recorder the hook has constructed: its state, and whether the
    tracks of its stream are still live. Both listeners are attached to it
    in the same synchronous block that constructs it. *)
Record MediaRecorder : Type := mkRecorder {
  state : RecordingState;
  tracksLive : bool
}.

(** The hook: the two [useState] cells, the two [useRef] cells, and the
    recorders constructed so far. A recorder is named by its position in
    [recorders]; every listener reads and writes the one chunk buffer
    [audioChunksRef], whichever recorder it is attached to. *)
Record Hook : Type := mkHook {
  isRecording : bool;
  audioBlob : option Blob;
  mediaRecorderRef : option nat;
  audioChunksRef : list Blob;
  recorders : list MediaRecorder
}.

Definition initialHook : Hook := mkHook false None None [] [].

(** What the browser answers inside one call of [startRecording]:
    [getUserMedia] resolves with a stream or rejects, the recorder
    constructor accepts the MIME type or throws, [start()] succeeds or throws. *)
Inductive Setup : Type :=
| ConstructorThrows (e : Thrown)
| StartThrows (e : Thrown)
| Started.

Record MediaEnv : Type := mkMediaEnv {
  getUserMedia : Completion unit;
  setup : Setup
}.

Definition microphoneAlert : string :=
  "ไม่สามารถเข้าถึงไมโครโฟนได้ โปรดตรวจสอบการอนุญาตในเบราว์เซอร์ของคุณ".

(** The [catch] block of [startRecording]. *)
Definition onStartFailure (err : Thrown) : list Effect :=
  [ConsoleError "Failed to get user media" err; Alert microphoneAlert].

(** [startRecording]: the hook after the call and the effects of the call.
    The promise it returns always resolves: the [catch] block rethrows nothing. *)
Definition startRecording (env : MediaEnv) (h : Hook) : Hook * list Effect :=
  match getUserMedia env with
  | Throws err => (h, onStartFailure err)
  | Returns stream =>
      (* setIsRecording(true); setAudioBlob(null); audioChunksRef.current = [] *)
      let cleared := mkHook true None (mediaRecorderRef h) [] (recorders h) in
      match setup env with
      | ConstructorThrows err => (cleared, onStartFailure err)
      | StartThrows err =>
          (mkHook true None (Some (length (recorders h))) []
                  (recorders h ++ [mkRecorder inactive true]),
           onStartFailure err)
      | Started =>
          (mkHook true None (Some (length (recorders h))) []
                  (recorders h ++ [mkRecorder recording true]),
           [])
      end
  end.

Fixpoint update {A} (l : list A) (i : nat) (f : A -> A) : list A :=
  match l, i with
  | [], _ => []
  | x :: rest, 0 => f x :: rest
  | x :: rest, S j => x :: update rest j f
  end.

(** [stopRecording]. [stop()] on a recorder that is not recording throws an
    [InvalidStateError]; nothing catches it and the setter after it is not reached. *)
Definition stopRecording (h : Hook) : Completion Hook :=
  match mediaRecorderRef h with
  | None => Returns h
  | Some r =>
      match nth_error (recorders h) r with
      | Some (mkRecorder recording _) =>
          Returns (mkHook false (audioBlob h) (mediaRecorderRef h) (audioChunksRef h)
                          (update (recorders h) r (fun m => mkRecorder inactive (tracksLive m))))
      | _ => Throws (ErrorObject "InvalidStateError")
      end
  end.

(** The listener of "dataavailable"; [None] is an event whose [data] is undefined. *)
Definition onDataAvailable (data : option Blob) (h : Hook) : Hook :=
  match data with
  | None => h
  | Some chunk =>
      if Nat.eqb (size chunk) 0 then h
      else mkHook (isRecording h) (audioBlob h) (mediaRecorderRef h)
                  (audioChunksRef h ++ [chunk]) (recorders h)
  end.

(** The listener of "stop" attached to recorder [r]: the payload is built from
    the buffer as it is now, and the tracks of that recorder's stream are stopped. *)
Definition onStop (r : nat) (h : Hook) : Hook :=
  mkHook (isRecording h) (Some (newBlob (audioChunksRef h) "audio/webm"))
         (mediaRecorderRef h) (audioChunksRef h)
         (update (recorders h) r (fun m => mkRecorder (state m) false)).

(** What can happen to the hook: the two calls it exports, and the two events
    a recorder fires. An event of a recorder that was never constructed has no
    listener. *)
Inductive Event : Type :=
| CallStart (env : MediaEnv)
| CallStop
| DataAvailable (r : nat) (data : option Blob)
| Stop (r : nat).

Definition step (h : Hook) (ev : Event) : Hook :=
  match ev with
  | CallStart env => fst (startRecording env h)
  | CallStop => match stopRecording h with Returns h' => h' | Throws _ => h end
  | DataAvailable r data =>
      if Nat.ltb r (length (recorders h)) then onDataAvailable data h else h
  | Stop r =>
      if Nat.ltb r (length (recorders h)) then onStop r h else h
  end.

Definition run (h : Hook) (evs : list Event) : Hook := fold_left step evs h.

End AudioRecorder.
Import AudioRecorder.

(** ** A reference implementation of the platform's pure built-ins

    [JSON.parse] and the base64 data URL of the file reader, written out so
    that a concrete [World] can be run. The theorems below hold for every
    [World]; these definitions only instantiate it. *)
Module JSONText.

Definition DQ : ascii := ascii_of_nat 34.
Definition code (c : ascii) : nat := nat_of_ascii c.
Definition isChar (c : ascii) (lit : string) : bool := String c EmptyString =? lit.

Definition isWhitespace (c : ascii) : bool :=
  let n := code c in
  Nat.eqb n 32 || Nat.eqb n 9 || Nat.eqb n 10 || Nat.eqb n 13.

Definition isDigit (c : ascii) : bool :=
  let n := code c in Nat.leb 48 n && Nat.leb n 57.

Fixpoint skipWhitespace (s : string) : string :=
  match s with
  | String c rest => if isWhitespace c then skipWhitespace rest else s
  | EmptyString => s
  end.

(** The longest prefix of digits, and what follows it. *)
Fixpoint digits (s : string) : string * string :=
  match s with
  | String c rest =>
      if isDigit c then let (ds, r) := digits rest in (String c ds, r)
      else (EmptyString, s)
  | EmptyString => (EmptyString, s)
  end.

Definition nonEmptyDigits (s : string) : option (string * string) :=
  match digits s with
  | (EmptyString, _) => None
  | (ds, r) => Some (ds, r)
  end.

(** The integer part: a lone zero, or digits that start with 1 to 9. *)
Definition integerPart (s : string) : option (string * string) :=
  match s with
  | String c rest => if isChar c "0" then Some ("0", rest) else nonEmptyDigits s
  | EmptyString => None
  end.

Definition fractionPart (s : string) : option (string * string) :=
  match s with
  | String c rest =>
      if isChar c "." then
        match nonEmptyDigits rest with
        | Some (ds, r) => Some (String c ds, r)
        | None => None
        end
      else Some ("", s)
  | EmptyString => Some ("", s)
  end.

Definition exponentPart (s : string) : option (string * string) :=
  match s with
  | String e rest =>
      if isChar e "e" || isChar e "E" then
        let (sign, rest') :=
          match rest with
          | String sg r => if isChar sg "+" || isChar sg "-" then (String sg "", r) else ("", rest)
          | EmptyString => ("", rest)
          end in
        match nonEmptyDigits rest' with
        | Some (ds, r) => Some (String e sign ++ ds, r)
        | None => None
        end
      else Some ("", s)
  | EmptyString => Some ("", s)
  end.

Definition number (s : string) : option (string * string) :=
  let (sign, s1) :=
    match s with
    | String c r => if isChar c "-" then ("-", r) else ("", s)
    | EmptyString => ("", s)
    end in
  match integerPart s1 with
  | Some (i, s2) =>
      match fractionPart s2 with
      | Some (f, s3) =>
          match exponentPart s3 with
          | Some (e, s4) => Some (sign ++ i ++ f ++ e, s4)
          | None => None
          end
      | None => None
      end
  | None => None
  end.

Definition hexValue (c : ascii) : option N :=
  let n := code c in
  if Nat.leb 48 n && Nat.leb n 57 then Some (N.of_nat (n - 48))
  else if Nat.leb 65 n && Nat.leb n 70 then Some (N.of_nat (n - 55))
  else if Nat.leb 97 n && Nat.leb n 102 then Some (N.of_nat (n - 87))
  else None.

Definition codeUnit (a b c d : ascii) : option N :=
  match hexValue a, hexValue b, hexValue c, hexValue d with
  | Some x, Some y, Some z, Some w => Some (((x * 16 + y) * 16 + z) * 16 + w)%N
  | _, _, _, _ => None
  end.

(** UTF-8 of a code point; a lone surrogate is written in the same
    three-byte form. *)
Definition utf8 (cp : N) : string :=
  let byte (n : N) := ascii_of_N n in
  (if cp <? 128 then String (byte cp) ""
   else if cp <? 2048 then
     String (byte (192 + cp / 64)) (String (byte (128 + cp mod 64)) "")
   else if cp <? 65536 then
     String (byte (224 + cp / 4096))
       (String (byte (128 + (cp / 64) mod 64))
          (String (byte (128 + cp mod 64)) ""))
   else
     String (byte (240 + cp / 262144))
       (String (byte (128 + (cp / 4096) mod 64))
          (String (byte (128 + (cp / 64) mod 64))
             (String (byte (128 + cp mod 64)) ""))))%N.

Definition isHighSurrogate (u : N) : bool := ((55296 <=? u) && (u <=? 56319))%N.
Definition isLowSurrogate (u : N) : bool := ((56320 <=? u) && (u <=? 57343))%N.

Definition simpleEscape (c : ascii) : option ascii :=
  if Ascii.eqb c DQ then Some DQ
  else if isChar c "\" then Some c
  else if isChar c "/" then Some c
  else if isChar c "b" then Some (ascii_of_nat 8)
  else if isChar c "f" then Some (ascii_of_nat 12)
  else if isChar c "n" then Some (ascii_of_nat 10)
  else if isChar c "r" then Some (ascii_of_nat 13)
  else if isChar c "t" then Some (ascii_of_nat 9)
  else None.

Definition prepend (p : string) (r : option (string * string)) : option (string * string) :=
  match r with
  | Some (body, rest) => Some (p ++ body, rest)
  | None => None
  end.

(** The second half of a surrogate pair written as an escape, if [s] starts with one. *)
Definition lowSurrogateEscape (s : string) : option N :=
  match s with
  | String b (String u (String l1 (String l2 (String l3 (String l4 _))))) =>
      if isChar b "\" && isChar u "u" then
        match codeUnit l1 l2 l3 l4 with
        | Some v => if isLowSurrogate v then Some v else None
        | None => None
        end
      else None
  | _ => None
  end.

(** The characters of a string literal after its opening quote, up to the
    closing quote. *)
Fixpoint stringBody (s : string) : option (string * string) :=
  match s with
  | EmptyString => None
  | String c rest =>
      if Ascii.eqb c DQ then Some ("", rest)
      else if isChar c "\" then
        match rest with
        | String e after =>
            if isChar e "u" then
              match after with
              | String h1 (String h2 (String h3 (String h4 after4))) =>
                  match codeUnit h1 h2 h3 h4 with
                  | Some u =>
                      match (if isHighSurrogate u then lowSurrogateEscape after4 else None),
                            after4 with
                      | Some v, String _ (String _ (String _ (String _ (String _ (String _ after10))))) =>
                          prepend (utf8 (65536 + (u - 55296) * 1024 + (v - 56320))%N)
                                  (stringBody after10)
                      | _, _ => prepend (utf8 u) (stringBody after4)
                      end
                  | None => None
                  end
              | _ => None
              end
            else
              match simpleEscape e with
              | Some x => prepend (String x "") (stringBody after)
              | None => None
              end
        | EmptyString => None
        end
      else if Nat.ltb (code c) 32 then None
      else prepend (String c "") (stringBody rest)
  end.

Definition literal (word : string) (v : Value) (s : string) : option (Value * string) :=
  if String.prefix word s
  then Some (v, substring (String.length word) (String.length s - String.length word) s)
  else None.

(** A separator or a closing bracket after an item, white space skipped. *)
Inductive Next : Type := More (rest : string) | Close (rest : string) | Neither.

Definition next (close : string) (s : string) : Next :=
  match skipWhitespace s with
  | String c rest =>
      if isChar c "," then More rest
      else if isChar c close then Close rest
      else Neither
  | EmptyString => Neither
  end.

(** One JSON value at the head of [s], leading white space skipped. A call
    spends one unit of [fuel] to go one level deeper, and one unit of [n] for
    each item of an array or object; every such step follows a consumed
    character, so the length of the text is enough of both. *)
Fixpoint value (fuel : nat) (s : string) : option (Value * string) :=
  match fuel with
  | 0 => None
  | S fuel =>
      let elements :=
        fix elements (n : nat) (s : string) : option (list Value * string) :=
          match n with
          | 0 => None
          | S n =>
              match value fuel s with
              | Some (v, r) =>
                  match next "]" r with
                  | More r' =>
                      match elements n r' with
                      | Some (vs, r'') => Some (v :: vs, r'')
                      | None => None
                      end
                  | Close r' => Some ([v], r')
                  | Neither => None
                  end
              | None => None
              end
          end in
      let members :=
        fix members (n : nat) (s : string) : option (list (string * Value) * string) :=
          match n with
          | 0 => None
          | S n =>
              match skipWhitespace s with
              | String q r =>
                  if Ascii.eqb q DQ then
                    match stringBody r with
                    | Some (k, r1) =>
                        match skipWhitespace r1 with
                        | String colon r2 =>
                            if isChar colon ":" then
                              match value fuel r2 with
                              | Some (v, r3) =>
                                  match next "}" r3 with
                                  | More r4 =>
                                      match members n r4 with
                                      | Some (ms, r5) => Some ((k, v) :: ms, r5)
                                      | None => None
                                      end
                                  | Close r4 => Some ([(k, v)], r4)
                                  | Neither => None
                                  end
                              | None => None
                              end
                            else None
                        | EmptyString => None
                        end
                    | None => None
                    end
                  else None
              | EmptyString => None
              end
          end in
      match skipWhitespace s with
      | EmptyString => None
      | String c r as t =>
          if isChar c "n" then literal "null" JNull t
          else if isChar c "t" then literal "true" (JBool true) t
          else if isChar c "f" then literal "false" (JBool false) t
          else if Ascii.eqb c DQ then
            match stringBody r with
            | Some (str, r') => Some (JString str, r')
            | None => None
            end
          else if isChar c "[" then
            match next "]" r with
            | Close r' => Some (JArray [], r')
            | _ =>
                match elements (String.length r) r with
                | Some (vs, r') => Some (JArray vs, r')
                | None => None
                end
            end
          else if isChar c "{" then
            match next "}" r with
            | Close r' => Some (JObject [], r')
            | _ =>
                match members (String.length r) r with
                | Some (ms, r') => Some (JObject ms, r')
                | None => None
                end
            end
          else
            match number t with
            | Some (lit, r') => Some (JNumber lit, r')
            | None => None
            end
      end
  end.

(** [JSON.parse]: one value, then nothing but white space; anything else is
    a [SyntaxError]. *)
Definition parse (s : string) : Completion Value :=
  match value (S (String.length s)) s with
  | Some (v, r) =>
      match skipWhitespace r with
      | EmptyString => Returns v
      | _ => Throws (ErrorObject "SyntaxError")
      end
  | None => Throws (ErrorObject "SyntaxError")
  end.

End JSONText.

Module Base64.

Definition alphabet : string :=
  "ABCDEFGHIJKLMNOPQRSTUVWXYZabcdefghijklmnopqrstuvwxyz0123456789+/".

Definition digit (n : nat) : string :=
  match String.get n alphabet with
  | Some c => String c ""
  | None => ""
  end.

(** Three bytes at a time, the last group padded. *)
Fixpoint encodeNat (bytes : list nat) : string :=
  match bytes with
  | [] => ""
  | [a] => digit (a / 4) ++ digit ((a mod 4) * 16) ++ "=="
  | [a; b] =>
      digit (a / 4) ++ digit ((a mod 4) * 16 + b / 16) ++ digit ((b mod 16) * 4) ++ "="
  | a :: b :: c :: rest =>
      digit (a / 4) ++ digit ((a mod 4) * 16 + b / 16) ++
      digit ((b mod 16) * 4 + c / 64) ++ digit (c mod 64) ++ encodeNat rest
  end.

Definition encode (bytes : list byte) : string := encodeNat (map Byte.to_nat bytes).

(** [FileReader.readAsDataURL] when the read succeeds. *)
Definition dataURL (b : Blob) : string :=
  "data:" ++ blob_type b ++ ";base64," ++ encode (blob_bytes b).

End Base64.

(** ** The application as a transition system

    The component and the hook side by side. A run of [handleProcessAudio]
    and a [setTimeout] callback are continuations: the effects they still have
    to perform wait in [pending] and are performed one at a time, in any
    interleaving with the other events (the event loop allows fewer
    interleavings than that, never more). *)
Module Session.

Record System : Type := mkSystem {
  app : AppState;
  hook : Hook;
  pending : list (list Effect)
}.

Definition initialSystem : System := mkSystem initialApp initialHook [].

(** [copyToClipboard]: the setter it calls at once, and the callback it leaves
    with [setTimeout]. *)
Definition copiedSetter (type : ContentType) (b : bool) : Effect :=
  match type with
  | transcript_type => SetCopiedTranscript b
  | summary_type => SetCopiedSummary b
  end.

Inductive transition : System -> System -> Prop :=
| callStartRecording : forall env sys,
    transition sys
      (mkSystem (app sys) (fst (startRecording env (hook sys))) (pending sys))
| callStopRecording : forall sys h',
    stopRecording (hook sys) = Returns h' ->
    transition sys (mkSystem (app sys) h' (pending sys))
| fireDataAvailable : forall r data sys,
    r < length (recorders (hook sys)) ->
    transition sys (mkSystem (app sys) (onDataAvailable data (hook sys)) (pending sys))
(* the "stop" listener sets [audioBlob]; the effect hook on [audioBlob] then
   starts a run on it *)
| fireStop : forall r W sys,
    r < length (recorders (hook sys)) ->
    transition sys
      (mkSystem (app sys) (onStop r (hook sys))
         (pending sys ++
          [trace (handleProcessAudio W (newBlob (audioChunksRef (hook sys)) "audio/webm"))]))
(* [handleFileChange] on a chosen file *)
| chooseFile : forall W file sys,
    transition sys
      (mkSystem (app sys) (hook sys) (pending sys ++ [trace (handleProcessAudio W file)]))
| copyToClipboard : forall type sys,
    transition sys
      (mkSystem (apply (app sys) (copiedSetter type true)) (hook sys)
         (pending sys ++ [[copiedSetter type false]]))
(* a waiting continuation performs its next effect *)
| progress : forall before e rest after sys,
    pending sys = (before ++ (e :: rest) :: after)%list ->
    transition sys
      (mkSystem (apply (app sys) e) (hook sys) (before ++ rest :: after)%list).

Inductive Reachable : System -> Prop :=
| reach_initial : Reachable initialSystem
| reach_step : forall sys sys', Reachable sys -> transition sys sys' -> Reachable sys'.

End Session.
Import Session.

(** ** Observations on a list of effects *)
Module Observe.

Definition isSetter (e : Effect) : bool :=
  match e with
  | SetStatus _ | SetTranscript _ | SetSummary _ | SetError _
  | SetCopiedTranscript _ | SetCopiedSummary _ => true
  | FileRead _ | NetworkCall _ | ConsoleError _ _ | Alert _ => false
  end.

(** The requests sent to the hosted model, in order. *)
Fixpoint networkCalls (tr : list Effect) : list Request :=
  match tr with
  | [] => []
  | NetworkCall req :: rest => req :: networkCalls rest
  | _ :: rest => networkCalls rest
  end.

(** The summaries a run stores, in order. *)
Fixpoint summariesSet (tr : list Effect) : list string :=
  match tr with
  | [] => []
  | SetSummary x :: rest => x :: summariesSet rest
  | _ :: rest => summariesSet rest
  end.

(** The statuses a run assigns, in order. *)
Fixpoint statusesSet (tr : list Effect) : list Status :=
  match tr with
  | [] => []
  | SetStatus x :: rest => x :: statusesSet rest
  | _ :: rest => statusesSet rest
  end.

(** The two kinds of request differ in their contents: the transcription
    request carries parts, the summarization request one prompt string. *)
Definition isSummarizationRequest (req : Request) : bool :=
  match contents req with
  | Prompt _ => true
  | Parts _ => false
  end.

Definition contains (needle hay : string) : Prop :=
  exists before after, hay = before ++ needle ++ after.

End Observe.
Import Observe.

(** ** The statements of the specification, in its own words *)
Module Spec.

(** A value conforms to a response schema: a string for [STRING], an array
    of conforming items for [ARRAY], and for [OBJECT] an object that has every
    required property and whose listed properties, where present, conform. *)
Fixpoint conforms (schema : Schema) (v : Value) {struct schema} : bool :=
  match schema, v with
  | STRING _, JString _ => true
  | ARRAY items, JArray vs => forallb (conforms items) vs
  | OBJECT properties required, JObject ms =>
      forallb (fun k => match getProp k ms with Some _ => true | None => false end) required
      && forallb (fun p => match getProp (fst p) ms with
                           | Some x => conforms (snd p) x
                           | None => true
                           end) properties
  | _, _ => false
  end.

Definition bracket (segment : TranscriptSegment) : string :=
  "[" ++ startTime segment ++ " - " ++ endTime segment ++ "] ".

(** The line of a segment as the specification words it: the speaker label
    whenever the optional speaker is there. *)
Definition lineAsClaimed (segment : TranscriptSegment) : string :=
  match speaker segment with
  | Some sp => bracket segment ++ sp ++ ": " ++ text segment
  | None => bracket segment ++ text segment
  end.

(** The same with the label only for a speaker that is there and not empty. *)
Definition line (segment : TranscriptSegment) : string :=
  match speaker segment with
  | Some (String c sp) => bracket segment ++ String c sp ++ ": " ++ text segment
  | Some EmptyString | None => bracket segment ++ text segment
  end.

(** Lines put together with a separator between neighbours. *)
Fixpoint separated (sep : string) (lines : list string) : string :=
  match lines with
  | [] => ""
  | [l] => l
  | l :: rest => l ++ sep ++ separated sep rest
  end.

(** The document of a transcript: the text of each segment, in order, one per line. *)
Definition document (t : Transcript) : string := separated LF (map text t).

(** A text that holds no line feed, so that it is one line of a document. *)
Fixpoint oneLine (s : string) : bool :=
  match s with
  | EmptyString => true
  | String c rest => negb (Ascii.eqb c (ascii_of_nat 10)) && oneLine rest
  end.

End Spec.


(** ** What the world answers to a transcription

    The case a world is in for a given blob, read off the world alone: the
    blob cannot be read, the request is rejected (a transport error), the
    response text is not JSON, or it parses to some value. *)
Module Answers.

Inductive Answer : Type :=
| Unreadable (e : Thrown)
| TransportError (request : Request) (e : Thrown)
| NotJSON (request : Request) (e : Thrown)
| Parsed (request : Request) (v : Value).

Definition answer (W : World) (blob : Blob) : Answer :=
  match readAsDataURL W blob with
  | Throws e => Unreadable e
  | Returns url =>
      let request := transcriptionRequest blob (nth_error (split "," url) 1) in
      match generateContent W request with
      | Throws e => TransportError request e
      | Returns response =>
          match JSON_parse W (response_text response) with
          | Throws e => NotJSON request e
          | Returns v => Parsed request v
          end
      end
  end.

(** The failures the specification lists for [transcribe]: a transport
    error (a blob that cannot be sent counted with it), a response that is
    not JSON, a response off the transcript schema. *)
Definition failsAsClaimed (a : Answer) : bool :=
  match a with
  | Unreadable _ | TransportError _ _ | NotJSON _ _ => true
  | Parsed _ v => negb (Spec.conforms transcriptSchema v)
  end.

Definition isFailure {A} (r : Result A) : bool :=
  match r with
  | Fails _ => true
  | Ok _ | IllTyped => false
  end.

End Answers.
Import Answers.

(** ** Failed runs

    A run of [handleProcessAudio] fails at one of its two steps: the
    transcription rejects, or the transcription resolves with a transcript
    and the summarization of that transcript rejects. [FailedRun W blob kept e]
    says the run on [blob] in world [W] fails with [e] thrown, [kept] being
    the transcript the run had obtained by then. *)
Module Runs.

Inductive FailedRun (W : World) (blob : Blob) : Transcript -> Thrown -> Prop :=
| transcriptionFails : forall e,
    result (transcribeAudio W blob) = Fails e ->
    FailedRun W blob [] e
| summarizationFails : forall v t e,
    result (transcribeAudio W blob) = Ok v ->
    asTranscript v = Some t ->
    result (summarizeText W t) = Fails e ->
    FailedRun W blob t e.

(** The [catch] block of [handleProcessAudio]. *)
Definition catchEffects (err : Thrown) : list Effect :=
  [ ConsoleError "" err;
    SetError (processingErrorPrefix ++
              match err with
              | ErrorObject message => message
              | OtherValue _ => unknownErrorMessage
              end);
    SetStatus IDLE ].

(** The effects of a run after its transcription has settled with [r]. *)
Definition afterTranscription (W : World) (r : Result Value) : list Effect :=
  match r with
  | Fails e => catchEffects e
  | IllTyped => []
  | Ok v =>
      match asTranscript v with
      | None => []
      | Some [] => [SetTranscript []; SetSummary noTranscriptSummary; SetStatus DONE]
      | Some (segment :: rest) =>
          SetTranscript (segment :: rest)
          :: trace (summarizeText W (segment :: rest)) ++
             match result (summarizeText W (segment :: rest)) with
             | Ok summaryResult => [SetSummary summaryResult; SetStatus DONE]
             | Fails e => catchEffects e
             | IllTyped => []
             end
      end
  end.

End Runs.
Import Runs.

(** ** Recording cycles

    A cycle starts at a call of [startRecording] that is granted the
    microphone: that is where the buffer is emptied. *)
Module Cycles.

Definition grantedStart (ev : AudioRecorder.Event) : bool :=
  match ev with
  | CallStart env =>
      match getUserMedia env with
      | Returns _ => true
      | Throws _ => false
      end
  | _ => false
  end.

(** The events of one cycle: anything but a granted start. *)
Definition withinCycle (evs : list AudioRecorder.Event) : bool :=
  forallb (fun ev => negb (grantedStart ev)) evs.

(** The chunks delivered during a list of events that are not empty: the
    data of each "dataavailable" event fired by one of the [n] recorders
    constructed so far, when it is defined and its size is not zero, in the
    order of arrival. *)
Fixpoint delivered (n : nat) (evs : list AudioRecorder.Event) : list Blob :=
  match evs with
  | [] => []
  | DataAvailable r (Some chunk) :: rest =>
      if Nat.ltb r n && negb (Nat.eqb (size chunk) 0)
      then chunk :: delivered n rest
      else delivered n rest
  | _ :: rest => delivered n rest
  end.

End Cycles.
Import Cycles.

(** ** The status invariant *)
Module Invariant.

Definition pipelineStatus (x : Status) : Prop := x = IDLE \/ x = PROCESSING \/ x = DONE.

(** No waiting continuation is about to assign [RECORDING]. *)
Definition assignsPipelineStatus (tr : list Effect) : Prop :=
  Forall pipelineStatus (statusesSet tr).

(** The first waiting continuation performs its next effect. *)
Definition advance (sys : System) : System :=
  match pending sys with
  | (e :: rest) :: after => mkSystem (apply (app sys) e) (hook sys) (rest :: after)
  | _ => sys
  end.

End Invariant.
Import Invariant.

(** ** Concrete worlds, to run the model on *)
Module Sample.

Definition quoted (s : string) : string :=
  String JSONText.DQ "" ++ s ++ String JSONText.DQ "".

Definition member (key value : string) : string := quoted key ++ ":" ++ quoted value.

(** A browser that reads every blob, with a hosted model that gives one
    answer to a transcription request and one to a summarization request. *)
Definition browser (transcription summarization : Completion string) : World :=
  mkWorld
    (fun b => Returns (Base64.dataURL b))
    (fun req =>
       match (if isSummarizationRequest req then summarization else transcription) with
       | Returns body => Returns (mkResponse body)
       | Throws e => Throws e
       end)
    JSONText.parse.

Definition recordedAudio : Blob := mkBlob [x01; x02; x03] "audio/webm".

Definition greeting : TranscriptSegment := mkSegment None "สวัสดี" "00:00:00" "00:00:02".

Definition greetingJSON : string :=
  "[{" ++ member "text" "สวัสดี" ++ "," ++ member "startTime" "00:00:00" ++ ","
       ++ member "endTime" "00:00:02" ++ "}]".

Definition offline : Thrown := ErrorObject "Failed to fetch".

(** A well-formed JSON text off the transcript schema: an array whose one
    object has none of the required properties. *)
Definition offSchemaJSON : string := "[{" ++ member "speaker" "A" ++ "}]".

(** The model answers the greeting; the summarization request is rejected. *)
Definition summaryFailsWorld : World := browser (Returns greetingJSON) (Throws offline).

(** The model hears nothing: it answers the empty array. *)
Definition silenceWorld : World := browser (Returns "[]") (Returns "- (สรุป)").

(** Every request is rejected. *)
Definition offlineWorld : World := browser (Throws offline) (Throws offline).

Definition offSchemaWorld : World := browser (Returns offSchemaJSON) (Returns "- (สรุป)").

(** The browser refuses the microphone. *)
Definition deniedEnv : MediaEnv :=
  mkMediaEnv (Throws (ErrorObject "NotAllowedError: Permission denied")) Started.

(** The browser grants the microphone and the recorder starts. *)
Definition grantedEnv : MediaEnv := mkMediaEnv (Returns tt) Started.

Definition chunk (bytes : list byte) : Blob := mkBlob bytes "audio/webm".

(** An earlier cycle, complete: a chunk [0xAA], the stop, the payload. *)
Definition afterFirstCycle : Hook :=
  run initialHook
    [CallStart grantedEnv; DataAvailable 0 (Some (chunk [xaa])); CallStop; Stop 0].

(** A file has been chosen and its run has gone as far as the transcription
    request: the reset and the assignment of [PROCESSING] are done. *)
Definition uploading : System :=
  Nat.iter 9 advance
    (mkSystem initialApp initialHook [trace (handleProcessAudio summaryFailsWorld recordedAudio)]).

(** The events of a second cycle: two chunks with data, an event without
    data and an empty chunk between them, then the call of [stopRecording]. *)
Definition secondCycle : list AudioRecorder.Event :=
  [ DataAvailable 1 (Some (chunk [x01; x02]));
    DataAvailable 1 None;
    DataAvailable 1 (Some (chunk []));
    DataAvailable 1 (Some (chunk [x03]));
    CallStop ].

End Sample.

(** ** Further notions used by the properties of the whole files *)
Module Notions.

(** A string without the character [c]. *)
Fixpoint lacks (c : ascii) (s : string) : bool :=
  match s with
  | EmptyString => true
  | String x rest => negb (Ascii.eqb x c) && lacks c rest
  end.

(** A segment none of whose fields holds a line feed. *)
Definition oneLineSegment (segment : TranscriptSegment) : bool :=
  Spec.oneLine (startTime segment) && Spec.oneLine (endTime segment)
  && match speaker segment with
     | Some sp => Spec.oneLine sp
     | None => true
     end
  && Spec.oneLine (text segment).

(** [mediaRecorderRef] names the recorder constructed last, and holds
    nothing while none has been constructed. *)
Definition refNamesLast (h : Hook) : Prop :=
  mediaRecorderRef h =
  match recorders h with
  | [] => None
  | _ :: _ => Some (length (recorders h) - 1)
  end.

(** The index of the last of [n] recorders, if there is one. *)
Definition lastIndex (n : nat) : option nat :=
  match n with
  | 0 => None
  | S m => Some m
  end.

(** A registered "stop" event. *)
Definition isStopEvent (h : Hook) (ev : AudioRecorder.Event) : bool :=
  match ev with
  | Stop r => Nat.ltb r (length (recorders h))
  | _ => false
  end.

(** The microphone is granted and the recorder constructor throws. *)
Definition unsupportedEnv (e : Thrown) : MediaEnv := mkMediaEnv (Returns tt) (ConstructorThrows e).

(** The model answers the greeting and then a summary of it. *)
Definition meetingWorld : World :=
  Sample.browser (Returns Sample.greetingJSON) (Returns "- ทักทาย").

(** Two segments with speakers, as the model would send them. *)
Definition dialogue : Transcript :=
  [ mkSegment (Some "ผู้พูด 1") "สวัสดี" "00:00:00" "00:00:02";
    mkSegment (Some "ผู้พูด 2") "สวัสดีครับ" "00:00:02" "00:00:05" ].

End Notions.
Import Notions.

(** ** [handleProcessAudio] on every value the transcription can return

    [transcribeAudio] resolves with whatever [JSON.parse] produced, and a
    run goes on with that value unchecked. [App.handleProcessAudio] above
    follows a run as long as the value is of the type [TranscriptSegment[]];
    here the run is embedded on the value itself, whatever it is. Three
    expressions of the source inspect the value. On a value of the type they
    are computed as above; on any other value what they yield is what the
    JavaScript engine makes of them, and that is taken as a parameter: what
    is proved of a run is proved for every engine. *)
Module Untyped.

(** What evaluating an expression ends in: its value, or an [Error] instance
    raised by the engine (a [TypeError], a [RangeError]) with its message. *)
Inductive Evaluation (A : Type) : Type :=
| Yields (a : A)
| Raises (message : string).
Arguments Yields {A} a.
Arguments Raises {A} message.

Record Engine : Type := mkEngine {
  (* [x && x.length > 0], as the condition of the [if] in [handleProcessAudio] *)
  branchCondition : Value -> Evaluation bool;
  (* [!x || x.length === 0] in [summarizeText]: on a value of [JSON.parse]
     neither operand raises *)
  emptyCondition : Value -> bool;
  (* [x.map(segment => segment.text).join('\n')] in [summarizeText] *)
  joinedTexts : Value -> Evaluation string
}.

(** A transcript of the type, as the value it is: an array of objects. *)
Definition encodeSegment (segment : TranscriptSegment) : Value :=
  JObject
    ((match speaker segment with
      | Some sp => [("speaker", JString sp)]
      | None => []
      end)
     ++ [ ("text", JString (text segment));
          ("startTime", JString (startTime segment));
          ("endTime", JString (endTime segment)) ])%list.

Definition encode (t : Transcript) : Value := JArray (map encodeSegment t).

(** The effects of a run: those of the typed embedding, and the call of
    [setTranscript] on a value. *)
Inductive Effect : Type :=
| Lifted (e : Async.Effect)
| SetTranscriptValue (v : Value).

(** The component's state with the transcript cell holding a value. *)
Record AppState : Type := mkApp {
  statusCell : Status;
  transcriptCell : Value;
  summaryCell : string;
  errorCell : string;
  copiedTranscriptCell : bool;
  copiedSummaryCell : bool
}.

Definition initialApp : AppState := mkApp IDLE (JArray []) "" "" false false.

Definition apply (s : AppState) (e : Effect) : AppState :=
  match e with
  | SetTranscriptValue x =>
      mkApp (statusCell s) x (summaryCell s) (errorCell s)
            (copiedTranscriptCell s) (copiedSummaryCell s)
  | Lifted (SetTranscript t) =>
      mkApp (statusCell s) (encode t) (summaryCell s) (errorCell s)
            (copiedTranscriptCell s) (copiedSummaryCell s)
  | Lifted (SetStatus x) =>
      mkApp x (transcriptCell s) (summaryCell s) (errorCell s)
            (copiedTranscriptCell s) (copiedSummaryCell s)
  | Lifted (SetSummary x) =>
      mkApp (statusCell s) (transcriptCell s) x (errorCell s)
            (copiedTranscriptCell s) (copiedSummaryCell s)
  | Lifted (SetError x) =>
      mkApp (statusCell s) (transcriptCell s) (summaryCell s) x
            (copiedTranscriptCell s) (copiedSummaryCell s)
  | Lifted (SetCopiedTranscript x) =>
      mkApp (statusCell s) (transcriptCell s) (summaryCell s) (errorCell s)
            x (copiedSummaryCell s)
  | Lifted (SetCopiedSummary x) =>
      mkApp (statusCell s) (transcriptCell s) (summaryCell s) (errorCell s)
            (copiedTranscriptCell s) x
  | Lifted (FileRead _) | Lifted (NetworkCall _)
  | Lifted (ConsoleError _ _) | Lifted (Alert _) => s
  end.

Definition applyAll (s : AppState) (tr : list Effect) : AppState := fold_left apply tr s.

(** The same monad as [Async.M], over these effects. *)
Definition M (A : Type) : Type := list Effect * Result A.

Definition ret {A} (a : A) : M A := ([], Ok a).

Definition bind {A B} (m : M A) (k : A -> M B) : M B :=
  match m with
  | (tr, Ok a) => let (tr', r) := k a in (tr ++ tr', r)%list
  | (tr, Fails e) => (tr, Fails e)
  | (tr, IllTyped) => (tr, IllTyped)
  end.

Definition emit (e : Async.Effect) : M unit := ([Lifted e], Ok tt).

Definition setTranscript (v : Value) : M unit := ([SetTranscriptValue v], Ok tt).

Definition throw {A} (e : Thrown) : M A := ([], Fails e).

Definition try_catch {A} (body : M A) (handler : Thrown -> M A) : M A :=
  match body with
  | (tr, Fails e) => let (tr', r) := handler e in (tr ++ tr', r)%list
  | _ => body
  end.

Definition complete {A} (c : Completion A) : M A :=
  match c with
  | Returns a => ret a
  | Throws e => throw e
  end.

Definition evaluate {A} (c : Evaluation A) : M A :=
  match c with
  | Yields a => ret a
  | Raises message => throw (ErrorObject message)
  end.

(** A function of the typed embedding, called from here. *)
Definition lift {A} (m : Async.M A) : M A := (map Lifted (Async.trace m), Async.result m).

Definition trace {A} (m : M A) : list Effect := fst m.
Definition result {A} (m : M A) : Result A := snd m.

Notation "x <~ m ;; k" := (bind m (fun x => k))
  (at level 61, m at next level, right associativity).
Notation "m ;;; k" := (bind m (fun _ => k))
  (at level 61, right associativity).

(** The request of [summarizeText] around a document. *)
Definition promptRequest (textToSummarize : string) : Request :=
  let prompt := promptBefore ++ textToSummarize ++ promptAfter in
  mkRequest summarizationModel (Prompt prompt) (mkConfig None None (Some (3, 10))).

(** [summarizeText] on a value. *)
Definition summarizeText (W : World) (E : Engine) (transcript : Value) : M string :=
  match asTranscript transcript with
  | Some t => lift (GeminiService.summarizeText W t)
  | None =>
      if emptyCondition E transcript then ret emptySummaryPlaceholder
      else
        textToSummarize <~ evaluate (joinedTexts E transcript) ;;
        let request := promptRequest textToSummarize in
        try_catch
          (emit (NetworkCall request) ;;;
           response <~ complete (generateContent W request) ;;
           ret (response_text response))
          (fun error =>
             emit (ConsoleError "Error summarizing text:" error) ;;;
             throw (ErrorObject summarizationFailedMessage))
  end.

(** [transcriptResult && transcriptResult.length > 0]. *)
Definition hasSegments (E : Engine) (transcriptResult : Value) : M bool :=
  match asTranscript transcriptResult with
  | Some t => ret (Nat.ltb 0 (length t))
  | None => evaluate (branchCondition E transcriptResult)
  end.

(** The [try] block of [handleProcessAudio]. *)
Definition tryBlock (W : World) (E : Engine) (blob : Blob) : M unit :=
  transcriptResult <~ lift (transcribeAudio W blob) ;;
  setTranscript transcriptResult ;;;
  condition <~ hasSegments E transcriptResult ;;
  (if condition then
     summaryResult <~ summarizeText W E transcriptResult ;;
     emit (SetSummary summaryResult)
   else
     emit (SetSummary noTranscriptSummary)) ;;;
  emit (SetStatus DONE).

(** Its [catch] block. *)
Definition catchBlock (err : Thrown) : M unit :=
  emit (ConsoleError "" err) ;;;
  let errorMessage :=
    match err with
    | ErrorObject message => message
    | OtherValue _ => unknownErrorMessage
    end in
  emit (SetError (processingErrorPrefix ++ errorMessage)) ;;;
  emit (SetStatus IDLE).

Definition handleProcessAudio (W : World) (E : Engine) (blob : Blob) : M unit :=
  lift resetState ;;;
  emit (SetStatus PROCESSING) ;;;
  try_catch (tryBlock W E blob) catchBlock.

Definition afterRun (W : World) (E : Engine) (blob : Blob) (s : AppState) : AppState :=
  applyAll s (trace (handleProcessAudio W E blob)).

(** The value the transcript cell holds when a run is over: what the
    transcription resolved with, or the empty array of the reset. *)
Definition storedTranscript (W : World) (blob : Blob) : Value :=
  match Async.result (transcribeAudio W blob) with
  | Ok v => v
  | Fails _ | IllTyped => JArray []
  end.

(** The first operand of the render condition of the result cards,
    [status === Status.DONE]: when it is false no card is rendered, whatever
    the transcript cell holds. *)
Definition cardsAllowed (s : AppState) : bool :=
  match statusCell s with
  | DONE => true
  | _ => false
  end.

(** [{error && <ErrorDisplay message={error} />}]. *)
Definition errorShown (s : AppState) : option string :=
  if truthy (errorCell s) then Some (errorCell s) else None.

(** An engine for the runs that never ask it: it raises on every value. *)
Definition unaskedEngine : Engine :=
  mkEngine (fun _ => Raises "unasked") (fun _ => false) (fun _ => Raises "unasked").

(** The requests sent to the hosted model, in order. *)
Definition requests (tr : list Effect) : list Request :=
  flat_map (fun e => match e with
                     | Lifted (NetworkCall req) => [req]
                     | _ => []
                     end) tr.

(** Worlds whose model answers well-formed JSON that is no transcript: an
    array holding [null], a string, and [null] itself. *)
Definition nullElementWorld : World :=
  Sample.browser (Returns "[null]") (Returns "- (สรุป)").

Definition stringWorld : World :=
  Sample.browser (Returns (Sample.quoted "abc")) (Returns "- (สรุป)").

Definition nullWorld : World :=
  Sample.browser (Returns "null") (Returns "- (สรุป)").

End Untyped.

(** * Properties *)

(** ** Strings and [join] *)
Section StringFacts.

Lemma append_nil_r : forall s : string, s ++ "" = s.
Proof. induction s as [|c s IH]; simpl; [reflexivity | now rewrite IH]. Qed.

Lemma append_assoc : forall a b c : string, (a ++ b) ++ c = a ++ b ++ c.
Proof. induction a as [|x a IH]; intros; simpl; [reflexivity | now rewrite IH]. Qed.

Variable sep : string.

Lemma join_loop : forall xs k R,
  snd (fold_left (join_step sep) xs (S k, R)) = R ++ followers sep xs.
Proof.
  induction xs as [|x xs IH]; intros k R; simpl.
  - now rewrite append_nil_r.
  - rewrite IH. now rewrite !append_assoc.
Qed.

Lemma separated_cons : forall x xs,
  Spec.separated sep (x :: xs) = x ++ followers sep xs.
Proof.
  intros x xs; revert x.
  induction xs as [|y ys IH]; intros x.
  - simpl. now rewrite append_nil_r.
  - change (Spec.separated sep (x :: y :: ys)) with (x ++ sep ++ Spec.separated sep (y :: ys)).
    rewrite IH. reflexivity.
Qed.

Lemma join_separated : forall xs, join sep xs = Spec.separated sep xs.
Proof.
  intros [|x xs]; [reflexivity|].
  rewrite separated_cons. unfold join. simpl. apply join_loop.
Qed.

Lemma followers_app : forall xs ys, followers sep (xs ++ ys) = followers sep xs ++ followers sep ys.
Proof.
  induction xs as [|x xs IH]; intros ys; simpl; [reflexivity|].
  now rewrite IH, !append_assoc.
Qed.

Lemma join_app : forall x xs y ys,
  join sep ((x :: xs) ++ y :: ys) = join sep (x :: xs) ++ sep ++ join sep (y :: ys).
Proof.
  intros. rewrite !join_separated, <- app_comm_cons.
  rewrite !separated_cons, followers_app. simpl followers.
  now rewrite !append_assoc.
Qed.

End StringFacts.

(** Cutting a document at its line feeds gives back the lines it was made of. *)
Lemma split_one_line : forall s,
  Spec.oneLine s = true -> split (ascii_of_nat 10) s = [s].
Proof.
  induction s as [|c s IH]; intros H; [reflexivity|].
  simpl in H. apply andb_true_iff in H as [Hc Hs]. apply negb_true_iff in Hc.
  cbn [split]. rewrite Hc, (IH Hs). reflexivity.
Qed.

Lemma split_first_line : forall s rest,
  Spec.oneLine s = true ->
  split (ascii_of_nat 10) (s ++ LF ++ rest) = s :: split (ascii_of_nat 10) rest.
Proof.
  induction s as [|c s IH]; intros rest H.
  - reflexivity.
  - simpl in H. apply andb_true_iff in H as [Hc Hs]. apply negb_true_iff in Hc.
    change (String c s ++ LF ++ rest) with (String c (s ++ LF ++ rest)).
    cbn [split]. rewrite Hc, (IH rest Hs). reflexivity.
Qed.

Lemma split_separated : forall x xs,
  forallb Spec.oneLine (x :: xs) = true ->
  split (ascii_of_nat 10) (Spec.separated LF (x :: xs)) = x :: xs.
Proof.
  intros x xs; revert x.
  induction xs as [|y ys IH]; intros x H; simpl in H;
    apply andb_true_iff in H as [Hx Hrest].
  - now apply split_one_line.
  - change (Spec.separated LF (x :: y :: ys)) with (x ++ LF ++ Spec.separated LF (y :: ys)).
    rewrite split_first_line by assumption.
    now rewrite IH.
Qed.

(** ** [formatTranscript] (App.tsx) *)

Lemma formatSegment_line : forall segment, formatSegment segment = Spec.line segment.
Proof.
  intros [[[|c sp]|] t st et];
    unfold formatSegment, Spec.line, Spec.bracket, truthy;
    cbn [speaker text startTime endTime String.eqb negb];
    rewrite !append_assoc; reflexivity.
Qed.

(** C7, as stated, fails on a segment whose speaker is the empty string: the
    specification's line carries the label ": " and the code's line does not. *)
Lemma empty_speaker_has_no_label :
  Spec.lineAsClaimed (mkSegment (Some "") "hello" "00:00:00" "00:00:02")
    = "[00:00:00 - 00:00:02] : hello"
  /\ formatSegment (mkSegment (Some "") "hello" "00:00:00" "00:00:02")
    = "[00:00:00 - 00:00:02] hello"
  /\ formatSegment (mkSegment (Some "") "hello" "00:00:00" "00:00:02")
    <> Spec.lineAsClaimed (mkSegment (Some "") "hello" "00:00:00" "00:00:02").
Proof. repeat split; try reflexivity. discriminate. Qed.

(** C7, amended: every segment maps to "[startTime - endTime] speaker: text"
    when it has a speaker that is not the empty string and to
    "[startTime - endTime] text" otherwise (no speaker, or an empty one); the
    line depends on nothing but the four fields; the exported text is these
    lines with one line feed between neighbours, the copied text the same
    lines with two; and the segment of scenario A gives
    "[00:00:00 - 00:00:02] สวัสดี". *)
Theorem formatTranscript_lines : forall t : Transcript,
  map formatSegment t = map Spec.line t
  /\ formatTranscript t true = Spec.separated LF (map Spec.line t)
  /\ formatTranscript t false = Spec.separated (LF ++ LF) (map Spec.line t)
  /\ textToExport (ArrayContent t) transcript_type = StringContent (formatTranscript t true)
  /\ textToCopy (ArrayContent t) transcript_type = StringContent (formatTranscript t false)
  /\ formatTranscript [mkSegment None "สวัสดี" "00:00:00" "00:00:02"] true
     = "[00:00:00 - 00:00:02] สวัสดี".
Proof.
  intros t.
  assert (Hmap : map formatSegment t = map Spec.line t)
    by (apply map_ext; exact formatSegment_line).
  split; [exact Hmap|].
  split; [unfold formatTranscript; now rewrite join_separated, Hmap|].
  split; [unfold formatTranscript; now rewrite join_separated, Hmap|].
  repeat split; reflexivity.
Qed.

(** ** [summarizeText] (services/geminiService.ts) *)

(** C5: on the empty transcript [summarizeText] resolves with the fixed
    placeholder "ไม่มีข้อความให้สรุป" and performs no effect at all; in
    particular it sends no request, whatever the world is. *)
Theorem summarizeText_empty : forall W : World,
  summarizeText W [] = ([], Ok "ไม่มีข้อความให้สรุป")
  /\ networkCalls (trace (summarizeText W [])) = [].
Proof. intros W. split; reflexivity. Qed.

Lemma summarizeText_nonempty : forall W segment rest,
  exists tail r,
    summarizeText W (segment :: rest)
      = (NetworkCall (summarizationRequest (segment :: rest)) :: tail, r)
    /\ networkCalls tail = []
    /\ forallb (fun e => negb (isSetter e)) tail = true
    /\ (r = Fails (ErrorObject summarizationFailedMessage) \/ exists s, r = Ok s).
Proof.
  intros W segment rest. unfold summarizeText. simpl length. simpl Nat.eqb. cbv iota.
  unfold try_catch, bind, emit, complete, ret, throw.
  destruct (generateContent W (summarizationRequest (segment :: rest))) as [resp|e]; simpl.
  - exists [], (Ok (response_text resp)). repeat split; eauto.
  - eexists _, _. split; [reflexivity|]. repeat split; auto.
Qed.

(** C6: for every non-empty transcript, [summarizeText] sends exactly one
    request; its prompt is the fixed text around the document, and the
    document is the text of every segment, in the order of the transcript,
    with one line feed between neighbours. The document of a transcript cut
    in two is the document of the first part, a line feed, and the document
    of the second; and when no text holds a line feed, the lines of the
    document are the texts of the segments, as many and in the same order:
    nothing is left out, repeated or moved. *)
Theorem summarization_document : forall (W : World) (segment : TranscriptSegment) (rest : Transcript),
  networkCalls (trace (summarizeText W (segment :: rest)))
    = [mkRequest summarizationModel
         (Prompt (promptBefore ++ Spec.document (segment :: rest) ++ promptAfter))
         (mkConfig None None (Some (3, 10)))]
  /\ textToSummarize (segment :: rest) = Spec.document (segment :: rest)
  /\ Spec.document [segment] = text segment
  /\ (forall s' rest', Spec.document ((segment :: rest) ++ s' :: rest')%list
        = Spec.document (segment :: rest) ++ LF ++ Spec.document (s' :: rest'))
  /\ (forallb Spec.oneLine (map text (segment :: rest)) = true ->
      split (ascii_of_nat 10) (textToSummarize (segment :: rest))
      = map text (segment :: rest)).
Proof.
  intros W segment rest.
  assert (Hdoc : forall t, textToSummarize t = Spec.document t)
    by (intros t; apply join_separated).
  split; [|split; [apply Hdoc|split; [reflexivity|split]]].
  - destruct (summarizeText_nonempty W segment rest) as (tail & r & Heq & Hnet & _).
    rewrite Heq. simpl. rewrite Hnet.
    unfold summarizationRequest. now rewrite Hdoc.
  - intros s' rest'. rewrite <- !Hdoc. unfold textToSummarize.
    rewrite map_app. simpl map. apply join_app.
  - intros Hlines. rewrite Hdoc. unfold Spec.document.
    simpl map in *. now apply split_separated.
Qed.

(** ** The transcript schema and the transcript type

    The values that conform to [transcriptSchema] are the values that
    inhabit [TranscriptSegment[]]. *)

Lemma segment_conforms_iff_typed : forall v,
  Spec.conforms segmentSchema v = true <-> exists s, asSegment v = Some s.
Proof.
  intros v. unfold segmentSchema.
  destruct v as [|b|lit|str|elems|ms];
    try (split; [discriminate | intros [s H]; discriminate]).
  cbn [Spec.conforms forallb fst snd asSegment].
  split.
  - intros H.
    repeat match goal with
           | H : _ && _ = true |- _ => apply andb_true_iff in H as [? ?]
           end.
    destruct (getProp "text" ms) as [[]|]; simpl in *; try discriminate.
    destruct (getProp "startTime" ms) as [[]|]; simpl in *; try discriminate.
    destruct (getProp "endTime" ms) as [[]|]; simpl in *; try discriminate.
    destruct (getProp "speaker" ms) as [[]|]; simpl in *; try discriminate; eauto.
  - intros [s H].
    destruct (getProp "text" ms) as [[]|]; simpl in *; try discriminate H.
    destruct (getProp "startTime" ms) as [[]|]; simpl in *; try discriminate H.
    destruct (getProp "endTime" ms) as [[]|]; simpl in *; try discriminate H.
    destruct (getProp "speaker" ms) as [[]|]; simpl in *; try discriminate H; reflexivity.
Qed.

Lemma conforms_iff_typed : forall v,
  Spec.conforms transcriptSchema v = true <-> exists t, asTranscript v = Some t.
Proof.
  intros v. unfold transcriptSchema.
  destruct v as [|b|lit|str|elems|ms];
    try (split; [discriminate | intros [s H]; discriminate]).
  change (Spec.conforms (ARRAY ?i) (JArray ?l)) with (forallb (Spec.conforms i) l).
  cbn [asTranscript].
  induction elems as [|v vs IH].
  - simpl. split; [intros _; exists []; reflexivity | reflexivity].
  - cbn [forallb asSegments]. rewrite andb_true_iff, IH, segment_conforms_iff_typed.
    split.
    + intros [[s Hs] [t Ht]]. rewrite Hs, Ht. eauto.
    + intros [t H]. destruct (asSegment v) as [s|]; [|discriminate].
      destruct (asSegments vs) as [t'|]; [|discriminate]. eauto.
Qed.

(** ** The reference parser on a few texts *)

Example parse_greeting :
  JSONText.parse Sample.greetingJSON
  = Returns (JArray [JObject [("text", JString "สวัสดี");
                              ("startTime", JString "00:00:00");
                              ("endTime", JString "00:00:02")]])
  /\ asTranscript (JArray [JObject [("text", JString "สวัสดี");
                                    ("startTime", JString "00:00:00");
                                    ("endTime", JString "00:00:02")]])
     = Some [Sample.greeting].
Proof. split; vm_compute; reflexivity. Qed.

Example parse_nested :
  JSONText.parse " [ 1 , -2.5e+10, true,false , null, [[]], { } ] "
  = Returns (JArray [JNumber "1"; JNumber "-2.5e+10"; JBool true; JBool false; JNull;
                     JArray [JArray []]; JObject []]).
Proof. vm_compute; reflexivity. Qed.

Example parse_escapes :
  JSONText.parse (Sample.quoted "\u0e2a\u0E27\n\ud83d\ude00")
  = Returns (JString ("สว" ++ LF ++ "😀")).
Proof. vm_compute; reflexivity. Qed.

Example parse_rejects :
  map JSONText.parse [""; "undefined"; "[1,]"; "01"; "1 2"; "{,}"; "[1 2]"; "nul"; "1."]
  = map (fun _ => Throws (ErrorObject "SyntaxError"))
        [""; "undefined"; "[1,]"; "01"; "1 2"; "{,}"; "[1 2]"; "nul"; "1."].
Proof. vm_compute; reflexivity. Qed.

Example dataURL_of_recordedAudio :
  Base64.dataURL Sample.recordedAudio = "data:audio/webm;base64,AQID"
  /\ nth_error (split "," (Base64.dataURL Sample.recordedAudio)) 1 = Some "AQID".
Proof. split; vm_compute; reflexivity. Qed.

(** ** [transcribeAudio] (services/geminiService.ts) *)

Ltac run_async :=
  unfold try_catch, bind, typed, complete, emit, ret, throw, trace, result in *;
  simpl in *.

(** [transcribeAudio] case by case of the world's answer: the effects it
    performs, and how its promise settles. *)
Lemma transcribeAudio_answer : forall W blob,
  transcribeAudio W blob =
  match answer W blob with
  | Unreadable e =>
      ([FileRead blob; ConsoleError "Error transcribing audio:" e],
       Fails (ErrorObject transcriptionFailedMessage))
  | TransportError request e | NotJSON request e =>
      ([FileRead blob; NetworkCall request; ConsoleError "Error transcribing audio:" e],
       Fails (ErrorObject transcriptionFailedMessage))
  | Parsed request v => ([FileRead blob; NetworkCall request], Ok v)
  end.
Proof.
  intros W blob. unfold transcribeAudio, blobToBase64, answer.
  destruct (readAsDataURL W blob) as [url|e]; [|reflexivity].
  run_async.
  destruct (generateContent W _) as [response|e]; [|reflexivity].
  simpl.
  destruct (JSON_parse W (response_text response)) as [v|e]; reflexivity.
Qed.

Lemma transcribeAudio_result : forall W blob,
  result (transcribeAudio W blob) =
  match answer W blob with
  | Parsed _ v => Ok v
  | _ => Fails (ErrorObject transcriptionFailedMessage)
  end.
Proof.
  intros W blob. rewrite transcribeAudio_answer.
  destruct (answer W blob); reflexivity.
Qed.

Lemma transcribeAudio_silent : forall W blob,
  forallb (fun e => negb (isSetter e)) (trace (transcribeAudio W blob)) = true.
Proof.
  intros W blob. rewrite transcribeAudio_answer.
  destruct (answer W blob); reflexivity.
Qed.

Lemma answer_request_kind : forall W blob,
  match answer W blob with
  | Unreadable _ => True
  | TransportError request _ | NotJSON request _ | Parsed request _ =>
      isSummarizationRequest request = false
  end.
Proof.
  intros W blob. unfold answer.
  destruct (readAsDataURL W blob) as [url|e]; [|exact I].
  cbv zeta.
  destruct (generateContent W _) as [response|e]; [|reflexivity].
  destruct (JSON_parse W _) as [v|e]; reflexivity.
Qed.

Lemma transcribeAudio_requests : forall W blob,
  filter isSummarizationRequest (networkCalls (trace (transcribeAudio W blob))) = [].
Proof.
  intros W blob. rewrite transcribeAudio_answer.
  pose proof (answer_request_kind W blob) as H.
  destruct (answer W blob); simpl; try rewrite H; reflexivity.
Qed.

(** C2, as stated, fails on a world whose model answers the well-formed JSON
    text [[{"speaker":"A"}]]: the value is off the transcript schema, so the
    specification has [transcribe] fail, and [transcribeAudio] resolves with
    that value. *)
Lemma off_schema_response_is_returned :
  JSON_parse Sample.offSchemaWorld Sample.offSchemaJSON
    = Returns (JArray [JObject [("speaker", JString "A")]])
  /\ Spec.conforms transcriptSchema (JArray [JObject [("speaker", JString "A")]]) = false
  /\ failsAsClaimed (answer Sample.offSchemaWorld Sample.recordedAudio) = true
  /\ result (transcribeAudio Sample.offSchemaWorld Sample.recordedAudio)
     = Ok (JArray [JObject [("speaker", JString "A")]])
  /\ isFailure (result (transcribeAudio Sample.offSchemaWorld Sample.recordedAudio))
     <> failsAsClaimed (answer Sample.offSchemaWorld Sample.recordedAudio).
Proof. repeat split; try (vm_compute; reflexivity). vm_compute. discriminate. Qed.

(** C2, amended: [transcribeAudio] rejects, with the one
    transcription-failed error, exactly when the blob cannot be read, the
    request is rejected (a transport error) or the response text is not
    valid JSON; when the text is valid JSON the promise resolves with the
    parsed value as it is, on or off the transcript schema (the schema is
    sent to the model with the request and not checked on the response). The
    promise settles one way or the other: a rejection carries no transcript. *)
Theorem transcribeAudio_fails_exactly_when : forall (W : World) (blob : Blob),
  result (transcribeAudio W blob) =
    match answer W blob with
    | Unreadable _ | TransportError _ _ | NotJSON _ _ =>
        Fails (ErrorObject transcriptionFailedMessage)
    | Parsed _ v => Ok v
    end
  /\ (isFailure (result (transcribeAudio W blob)) = true
      <-> exists e, answer W blob = Unreadable e
                    \/ (exists request, answer W blob = TransportError request e)
                    \/ (exists request, answer W blob = NotJSON request e)).
Proof.
  intros W blob. rewrite transcribeAudio_result.
  destruct (answer W blob) as [e|request e|request e|request v]; simpl.
  - split; [reflexivity|split; eauto].
  - split; [reflexivity|split; eauto].
  - split; [reflexivity|split; eauto].
  - split; [reflexivity|split].
    + discriminate.
    + intros [e [H|[[request' H]|[request' H]]]]; discriminate.
Qed.

(** ** [handleProcessAudio] (App.tsx) *)

Lemma applyAll_app : forall s tr tr',
  applyAll s (tr ++ tr') = applyAll (applyAll s tr) tr'.
Proof. intros. unfold applyAll. apply fold_left_app. Qed.

Lemma applyAll_silent : forall tr s,
  forallb (fun e => negb (isSetter e)) tr = true -> applyAll s tr = s.
Proof.
  induction tr as [|e tr IH]; intros s H; [reflexivity|].
  simpl in H. apply andb_true_iff in H as [He Htr].
  unfold applyAll in *. simpl. rewrite IH by assumption.
  destruct e, s; simpl in *; try discriminate; reflexivity.
Qed.

Lemma networkCalls_app : forall tr tr',
  networkCalls (tr ++ tr') = (networkCalls tr ++ networkCalls tr')%list.
Proof.
  induction tr as [|e tr IH]; intros tr'; [reflexivity|].
  destruct e; simpl; rewrite IH; reflexivity.
Qed.

Lemma summariesSet_app : forall tr tr',
  summariesSet (tr ++ tr') = (summariesSet tr ++ summariesSet tr')%list.
Proof.
  induction tr as [|e tr IH]; intros tr'; [reflexivity|].
  destruct e; simpl; rewrite IH; reflexivity.
Qed.

Lemma summariesSet_silent : forall tr,
  forallb (fun e => negb (isSetter e)) tr = true -> summariesSet tr = [].
Proof.
  induction tr as [|e tr IH]; intros H; [reflexivity|].
  simpl in H. apply andb_true_iff in H as [He Htr].
  destruct e; simpl in *; try discriminate; auto.
Qed.

Lemma handleProcessAudio_trace : forall W blob,
  trace (handleProcessAudio W blob) =
  (trace resetState ++ SetStatus PROCESSING :: trace (transcribeAudio W blob)
   ++ afterTranscription W (result (transcribeAudio W blob)))%list.
Proof.
  intros W blob. unfold handleProcessAudio, afterTranscription, catchEffects.
  destruct (transcribeAudio W blob) as [tr [v|e|]]; run_async;
    rewrite ?app_nil_r; try reflexivity.
  destruct (asTranscript v) as [[|segment rest]|]; simpl;
    rewrite ?app_nil_r; try reflexivity.
  destruct (summarizeText W (segment :: rest)) as [tr' [x|e|]]; simpl;
    rewrite <- ?app_assoc; simpl; rewrite ?app_nil_r; reflexivity.
Qed.

Lemma afterRun_afterTranscription : forall W blob s,
  afterRun W blob s =
  applyAll (mkApp PROCESSING [] "" "" false false)
           (afterTranscription W (result (transcribeAudio W blob))).
Proof.
  intros W blob s. unfold afterRun.
  rewrite handleProcessAudio_trace, applyAll_app.
  change (SetStatus PROCESSING :: ?l)%list with ([SetStatus PROCESSING] ++ l)%list.
  rewrite !applyAll_app.
  rewrite (applyAll_silent (trace (transcribeAudio W blob)))
    by apply transcribeAudio_silent.
  destruct s; reflexivity.
Qed.

Lemma run_requests : forall W blob,
  filter isSummarizationRequest (networkCalls (trace (handleProcessAudio W blob)))
  = filter isSummarizationRequest
      (networkCalls (afterTranscription W (result (transcribeAudio W blob)))).
Proof.
  intros W blob. rewrite handleProcessAudio_trace.
  change (SetStatus PROCESSING :: ?l)%list with ([SetStatus PROCESSING] ++ l)%list.
  rewrite !networkCalls_app, !filter_app, transcribeAudio_requests. reflexivity.
Qed.

Lemma run_summaries : forall W blob,
  summariesSet (trace (handleProcessAudio W blob))
  = "" :: summariesSet (afterTranscription W (result (transcribeAudio W blob))).
Proof.
  intros W blob. rewrite handleProcessAudio_trace.
  change (SetStatus PROCESSING :: ?l)%list with ([SetStatus PROCESSING] ++ l)%list.
  rewrite !summariesSet_app.
  rewrite (summariesSet_silent (trace (transcribeAudio W blob)))
    by apply transcribeAudio_silent.
  reflexivity.
Qed.

Lemma transcription_error : forall W blob e,
  result (transcribeAudio W blob) = Fails e -> e = ErrorObject transcriptionFailedMessage.
Proof.
  intros W blob e H. rewrite transcribeAudio_result in H.
  destruct (answer W blob); congruence.
Qed.

Lemma prefixed_error_nonempty : forall message, processingErrorPrefix ++ message <> "".
Proof. intros message. unfold processingErrorPrefix. simpl. discriminate. Qed.

Lemma prefixed_error_truthy : forall message,
  truthy (processingErrorPrefix ++ message) = true.
Proof. intros message. unfold processingErrorPrefix. reflexivity. Qed.

(** C4: when the transcription call fails, the run stores no transcript and
    no summary (the only summary set is the empty one of the reset, and no
    summarization request is sent), the status ends at [IDLE], and the error
    message is the processing prefix followed by the transcription-failure
    notice: it is not empty, it contains the notice, and it is displayed. *)
Theorem transcription_failure_ends_idle : forall (W : World) (blob : Blob) (s : AppState) (e : Thrown),
  result (transcribeAudio W blob) = Fails e ->
  afterRun W blob s
    = mkApp IDLE [] "" (processingErrorPrefix ++ transcriptionFailedMessage) false false
  /\ error (afterRun W blob s) <> ""
  /\ contains transcriptionFailedMessage (error (afterRun W blob s))
  /\ errorShown (afterRun W blob s) = Some (error (afterRun W blob s))
  /\ summariesSet (trace (handleProcessAudio W blob)) = [""]
  /\ filter isSummarizationRequest (networkCalls (trace (handleProcessAudio W blob))) = [].
Proof.
  intros W blob s e H.
  pose proof (transcription_error _ _ _ H) as ->.
  assert (Hs : afterRun W blob s
    = mkApp IDLE [] "" (processingErrorPrefix ++ transcriptionFailedMessage) false false)
    by (rewrite afterRun_afterTranscription, H; reflexivity).
  rewrite Hs. cbn [error].
  split; [reflexivity|].
  split; [apply prefixed_error_nonempty|].
  split; [exists processingErrorPrefix, ""; now rewrite append_nil_r|].
  split; [unfold errorShown; cbn [error]; now rewrite prefixed_error_truthy|].
  split.
  - rewrite run_summaries, H. reflexivity.
  - rewrite run_requests, H. reflexivity.
Qed.

Lemma transcription_failure_ends_idle_witness :
  result (transcribeAudio Sample.offlineWorld Sample.recordedAudio)
    = Fails (ErrorObject transcriptionFailedMessage)
  /\ afterRun Sample.offlineWorld Sample.recordedAudio initialApp
    = mkApp IDLE [] "" (processingErrorPrefix ++ transcriptionFailedMessage) false false.
Proof.
  split; [vm_compute; reflexivity|].
  apply (transcription_failure_ends_idle Sample.offlineWorld Sample.recordedAudio
           initialApp (ErrorObject transcriptionFailedMessage)).
  vm_compute; reflexivity.
Defined.

(** C1, as stated, fails on a run whose transcription resolves with one
    segment and whose summarization request is rejected: the run ends at
    [IDLE] with an error, and the stored transcript is that segment, not the
    empty transcript of the reset. *)
Lemma transcript_kept_when_summary_fails :
  FailedRun Sample.summaryFailsWorld Sample.recordedAudio
            [Sample.greeting] (ErrorObject summarizationFailedMessage)
  /\ status (afterRun Sample.summaryFailsWorld Sample.recordedAudio initialApp) = IDLE
  /\ transcript (afterRun Sample.summaryFailsWorld Sample.recordedAudio initialApp)
     = [Sample.greeting]
  /\ transcript (afterRun Sample.summaryFailsWorld Sample.recordedAudio initialApp) <> [].
Proof.
  split; [|repeat split; try (vm_compute; reflexivity); vm_compute; discriminate].
  apply summarizationFails with
    (v := JArray [JObject [("text", JString "สวัสดี");
                           ("startTime", JString "00:00:00");
                           ("endTime", JString "00:00:02")]]);
    vm_compute; reflexivity.
Qed.

(** C3, as stated, fails on a run whose transcription resolves with the empty
    array: the summary the run stores is the placeholder of
    [handleProcessAudio], not the placeholder "ไม่มีข้อความให้สรุป" of
    [summarizeText]. *)
Lemma pipeline_placeholder_is_its_own :
  result (transcribeAudio Sample.silenceWorld Sample.recordedAudio) = Ok (JArray [])
  /\ summary (afterRun Sample.silenceWorld Sample.recordedAudio initialApp)
     = "ไม่สามารถสร้างสรุปได้เนื่องจากไม่มีข้อความที่ถอดเสียง"
  /\ summary (afterRun Sample.silenceWorld Sample.recordedAudio initialApp)
     <> "ไม่มีข้อความให้สรุป".
Proof.
  split; [vm_compute; reflexivity|].
  split; [vm_compute; reflexivity|].
  vm_compute. discriminate.
Qed.

(** C3, amended: when the transcription succeeds with an empty transcript,
    the run stores the fixed placeholder
    "ไม่สามารถสร้างสรุปได้เนื่องจากไม่มีข้อความที่ถอดเสียง" as its summary, sends
    no summarization request ([summarizeText] is not called), completes, and
    ends in [DONE]. *)
Theorem empty_transcript_run : forall (W : World) (blob : Blob) (s : AppState),
  result (transcribeAudio W blob) = Ok (JArray []) ->
  afterRun W blob s
    = mkApp DONE [] "ไม่สามารถสร้างสรุปได้เนื่องจากไม่มีข้อความที่ถอดเสียง" "" false false
  /\ result (handleProcessAudio W blob) = Ok tt
  /\ summariesSet (trace (handleProcessAudio W blob))
     = [""; "ไม่สามารถสร้างสรุปได้เนื่องจากไม่มีข้อความที่ถอดเสียง"]
  /\ filter isSummarizationRequest (networkCalls (trace (handleProcessAudio W blob))) = [].
Proof.
  intros W blob s H.
  split; [rewrite afterRun_afterTranscription, H; reflexivity|].
  split.
  - unfold handleProcessAudio.
    destruct (transcribeAudio W blob) as [tr r]. unfold result in H. simpl in H. subst r.
    reflexivity.
  - split.
    + rewrite run_summaries, H. reflexivity.
    + rewrite run_requests, H. reflexivity.
Qed.

Lemma empty_transcript_run_witness :
  result (transcribeAudio Sample.silenceWorld Sample.recordedAudio) = Ok (JArray [])
  /\ afterRun Sample.silenceWorld Sample.recordedAudio initialApp
     = mkApp DONE [] "ไม่สามารถสร้างสรุปได้เนื่องจากไม่มีข้อความที่ถอดเสียง" "" false false.
Proof.
  split; [vm_compute; reflexivity|].
  apply (empty_transcript_run Sample.silenceWorld Sample.recordedAudio initialApp).
  vm_compute; reflexivity.
Defined.

(** ** [useAudioRecorder] (hooks/useAudioRecorder.ts) *)

Lemma forallb_false_witness : forall {A} (f : A -> bool) (l : list A),
  forallb f l = false -> exists x, In x l /\ f x = false.
Proof.
  induction l as [|a l IH]; intros H; [discriminate|].
  simpl in H. destruct (f a) eqn:Ha.
  - destruct (IH H) as (x & Hin & Hx). exists x. split; [now right|assumption].
  - exists a. split; [now left|assumption].
Qed.

Lemma step_keeps_inactive : forall h ev,
  grantedStart ev = false -> isRecording h = false -> isRecording (step h ev) = false.
Proof.
  intros h ev Hev Hh. destruct ev as [env| |r data|r]; simpl in *.
  - unfold startRecording. destruct (getUserMedia env); [discriminate|assumption].
  - unfold stopRecording.
    destruct (mediaRecorderRef h) as [r|]; [|assumption].
    destruct (nth_error (recorders h) r) as [[[|] live]|]; auto.
  - destruct (Nat.ltb r (length (recorders h))); [|assumption].
    unfold onDataAvailable. destruct data as [chunk|]; [|assumption].
    destruct (Nat.eqb (size chunk) 0); assumption.
  - destruct (Nat.ltb r (length (recorders h))); assumption.
Qed.

Lemma run_keeps_inactive : forall evs h,
  withinCycle evs = true ->
  isRecording h = false -> isRecording (run h evs) = false.
Proof.
  induction evs as [|ev evs IH]; intros h Hevs Hh; [assumption|].
  simpl in Hevs. apply andb_true_iff in Hevs as [Hev Hevs].
  apply negb_true_iff in Hev.
  unfold run in *. simpl. apply IH; [assumption|].
  now apply step_keeps_inactive.
Qed.

(** C8: when [getUserMedia] rejects (access denied or no device),
    [startRecording] leaves the whole hook as it was: [isRecording] keeps its
    value, so an inactive recorder stays inactive, no payload is set and the
    buffer is untouched; the failure is reported by the console message and
    the blocking alert about microphone access. In any history of the hook,
    [isRecording] is true only if some earlier [startRecording] was granted
    the microphone. *)
Theorem start_denied_stays_inactive : forall (env : MediaEnv) (h : Hook) (e : Thrown),
  getUserMedia env = Throws e ->
  startRecording env h
    = (h, [ConsoleError "Failed to get user media" e; Alert microphoneAlert])
  /\ (isRecording h = false -> isRecording (fst (startRecording env h)) = false)
  /\ audioBlob (fst (startRecording env h)) = audioBlob h
  /\ audioChunksRef (fst (startRecording env h)) = audioChunksRef h
  /\ (forall evs,
        isRecording (run initialHook evs) = true ->
        exists env', In (CallStart env') evs /\ getUserMedia env' = Returns tt).
Proof.
  intros env h e H.
  assert (Hstart : startRecording env h
    = (h, [ConsoleError "Failed to get user media" e; Alert microphoneAlert]))
    by (unfold startRecording; rewrite H; reflexivity).
  rewrite Hstart. simpl fst.
  repeat split; auto.
  intros evs Hrec.
  destruct (withinCycle evs) eqn:Hall.
  - rewrite (run_keeps_inactive evs initialHook Hall) in Hrec by reflexivity.
    discriminate.
  - apply forallb_false_witness in Hall. destruct Hall as (ev & Hin & Hev).
    apply negb_false_iff in Hev.
    destruct ev as [env'| | |]; try discriminate.
    exists env'. split; [assumption|].
    simpl in Hev. destruct (getUserMedia env') as [[]|]; [reflexivity|discriminate].
Qed.

Lemma start_denied_stays_inactive_witness :
  getUserMedia Sample.deniedEnv = Throws (ErrorObject "NotAllowedError: Permission denied")
  /\ startRecording Sample.deniedEnv initialHook
     = (initialHook,
        [ConsoleError "Failed to get user media"
           (ErrorObject "NotAllowedError: Permission denied");
         Alert microphoneAlert]).
Proof.
  split; [reflexivity|].
  exact (proj1 (start_denied_stays_inactive Sample.deniedEnv initialHook
                  (ErrorObject "NotAllowedError: Permission denied") eq_refl)).
Defined.

Lemma update_length : forall {A} (f : A -> A) (l : list A) i,
  length (update l i f) = length l.
Proof.
  induction l as [|x l IH]; intros [|i]; simpl; auto.
Qed.

(** Within a cycle no recorder is constructed, and the buffer only grows,
    by the chunk of the event when it delivers one. *)
Lemma step_within_cycle : forall h ev,
  grantedStart ev = false ->
  length (recorders (step h ev)) = length (recorders h)
  /\ audioChunksRef (step h ev)
     = (audioChunksRef h ++ delivered (length (recorders h)) [ev])%list.
Proof.
  intros h ev Hev. destruct ev as [env| |r data|r]; simpl in *.
  - unfold startRecording. destruct (getUserMedia env); [discriminate|].
    simpl. now rewrite app_nil_r.
  - unfold stopRecording.
    destruct (mediaRecorderRef h) as [r|]; [|now rewrite app_nil_r].
    destruct (nth_error (recorders h) r) as [[[|] live]|];
      simpl; rewrite ?update_length, app_nil_r; auto.
  - destruct (Nat.ltb r (length (recorders h))); simpl.
    + destruct data as [chunk|]; simpl; [|now rewrite app_nil_r].
      destruct (Nat.eqb (size chunk) 0); simpl; [now rewrite app_nil_r|auto].
    + destruct data as [chunk|]; now rewrite app_nil_r.
  - destruct (Nat.ltb r (length (recorders h))); simpl;
      rewrite ?update_length, app_nil_r; auto.
Qed.

Lemma delivered_cons : forall n ev evs,
  delivered n (ev :: evs) = (delivered n [ev] ++ delivered n evs)%list.
Proof.
  intros n ev evs. destruct ev as [env| |r [chunk|]|r]; simpl; try reflexivity.
  destruct (Nat.ltb r n && negb (Nat.eqb (size chunk) 0)); reflexivity.
Qed.

Lemma run_within_cycle : forall evs h,
  withinCycle evs = true ->
  length (recorders (run h evs)) = length (recorders h)
  /\ audioChunksRef (run h evs)
     = (audioChunksRef h ++ delivered (length (recorders h)) evs)%list.
Proof.
  induction evs as [|ev evs IH]; intros h Hevs.
  - simpl. now rewrite app_nil_r.
  - unfold withinCycle in Hevs. simpl in Hevs.
    apply andb_true_iff in Hevs as [Hev Hevs]. apply negb_true_iff in Hev.
    destruct (step_within_cycle h ev Hev) as [Hlen Hbuf].
    destruct (IH (step h ev) Hevs) as [Hlen' Hbuf'].
    change (run h (ev :: evs)) with (run (step h ev) evs).
    rewrite Hlen', Hbuf', Hlen, Hbuf.
    split; [reflexivity|].
    now rewrite (delivered_cons _ ev evs), app_assoc.
Qed.

Lemma delivered_nonempty : forall n evs,
  Forall (fun chunk => size chunk <> 0) (delivered n evs).
Proof.
  induction evs as [|ev evs IH]; [constructor|].
  destruct ev as [env| |r [chunk|]|r]; simpl; auto.
  destruct (Nat.ltb r n); simpl; auto.
  destruct (Nat.eqb (size chunk) 0) eqn:Hsize; simpl; auto.
  constructor; [|assumption]. now apply Nat.eqb_neq.
Qed.

(** C10: a call of [startRecording] that is granted the microphone (a denied
    call begins no recording and changes nothing) clears the delivered
    payload and empties the chunk buffer before it constructs and starts the
    recorder, also when that then fails. From there to the next granted
    start, whatever else happens, the buffer is the list of the chunks
    delivered to the "dataavailable" listener since, in arrival order,
    without the events that carry no data and without the chunks of size
    zero; the payload a "stop" event delivers is the blob of exactly these
    chunks, its bytes their bytes in that order. Neither the buffer nor the
    payload the hook held before the start has any part in it. *)
Theorem payload_is_current_cycle : forall (env : MediaEnv) (h0 : Hook)
    (evs : list AudioRecorder.Event) (r : nat),
  getUserMedia env = Returns tt ->
  withinCycle evs = true ->
  r < length (recorders (fst (startRecording env h0))) ->
  audioBlob (fst (startRecording env h0)) = None
  /\ audioChunksRef (fst (startRecording env h0)) = []
  /\ audioChunksRef (run (fst (startRecording env h0)) evs)
     = delivered (length (recorders (fst (startRecording env h0)))) evs
  /\ audioBlob (step (run (fst (startRecording env h0)) evs) (Stop r))
     = Some (newBlob (delivered (length (recorders (fst (startRecording env h0)))) evs)
                     "audio/webm")
  /\ blob_bytes (newBlob (delivered (length (recorders (fst (startRecording env h0)))) evs)
                         "audio/webm")
     = concat (map blob_bytes
                 (delivered (length (recorders (fst (startRecording env h0)))) evs))
  /\ Forall (fun chunk => size chunk <> 0)
            (delivered (length (recorders (fst (startRecording env h0)))) evs)
  /\ (setup env = Started ->
      mediaRecorderRef (fst (startRecording env h0)) = Some (length (recorders h0))
      /\ length (recorders h0) < length (recorders (fst (startRecording env h0)))).
Proof.
  intros env h0 evs r Hgranted Hevs Hr.
  set (h1 := fst (startRecording env h0)) in *.
  assert (Hclear : audioBlob h1 = None /\ audioChunksRef h1 = []).
  { unfold h1, startRecording. rewrite Hgranted.
    destruct (setup env); split; reflexivity. }
  destruct Hclear as [Hblob Hbuf].
  destruct (run_within_cycle evs h1 Hevs) as [Hlen Hrun].
  rewrite Hbuf in Hrun. simpl in Hrun.
  split; [assumption|]. split; [assumption|]. split; [assumption|].
  split.
  { simpl. rewrite Hlen.
    apply Nat.ltb_lt in Hr. rewrite Hr. simpl. now rewrite Hrun. }
  split; [reflexivity|].
  split; [apply delivered_nonempty|].
  intros Hsetup. unfold h1, startRecording. rewrite Hgranted, Hsetup. simpl.
  split; [reflexivity|]. rewrite length_app. simpl. lia.
Qed.

Lemma payload_is_current_cycle_witness :
  getUserMedia Sample.grantedEnv = Returns tt
  /\ withinCycle Sample.secondCycle = true
  /\ 1 < length (recorders (fst (startRecording Sample.grantedEnv Sample.afterFirstCycle)))
  /\ audioChunksRef Sample.afterFirstCycle = [Sample.chunk [xaa]]
  /\ audioBlob (step (run (fst (startRecording Sample.grantedEnv Sample.afterFirstCycle))
                          Sample.secondCycle) (Stop 1))
     = Some (mkBlob [x01; x02; x03] "audio/webm").
Proof.
  split; [reflexivity|]. split; [reflexivity|].
  split; [vm_compute; lia|]. split; [reflexivity|].
  exact (proj1 (proj2 (proj2 (proj2
    (payload_is_current_cycle Sample.grantedEnv Sample.afterFirstCycle
       Sample.secondCycle 1 eq_refl eq_refl
       (Nat.lt_succ_diag_r 1)))))).
Defined.

(** ** The status of the pipeline *)

Lemma statusesSet_app : forall tr tr',
  statusesSet (tr ++ tr') = (statusesSet tr ++ statusesSet tr')%list.
Proof.
  induction tr as [|e tr IH]; intros tr'; [reflexivity|].
  destruct e; simpl; rewrite IH; reflexivity.
Qed.

Lemma statusesSet_silent : forall tr,
  forallb (fun e => negb (isSetter e)) tr = true -> statusesSet tr = [].
Proof.
  induction tr as [|e tr IH]; intros H; [reflexivity|].
  simpl in H. apply andb_true_iff in H as [He Htr].
  destruct e; simpl in *; try discriminate; auto.
Qed.

Lemma catchEffects_statuses : forall e, statusesSet (catchEffects e) = [IDLE].
Proof. intros e. reflexivity. Qed.

Lemma summarizeText_silent : forall W t,
  forallb (fun e => negb (isSetter e)) (trace (summarizeText W t)) = true.
Proof.
  intros W [|segment rest]; [reflexivity|].
  destruct (summarizeText_nonempty W segment rest) as (tail & r & Heq & _ & Hsilent & _).
  rewrite Heq. simpl. assumption.
Qed.

(** The statuses one run assigns: [IDLE] by the reset, [PROCESSING], and
    then [DONE] or [IDLE], or nothing more if the run stops short. *)
Lemma run_statuses : forall W blob,
  assignsPipelineStatus (trace (handleProcessAudio W blob)).
Proof.
  intros W blob. unfold assignsPipelineStatus.
  rewrite handleProcessAudio_trace.
  change (SetStatus PROCESSING :: ?l)%list with ([SetStatus PROCESSING] ++ l)%list.
  rewrite !statusesSet_app.
  rewrite (statusesSet_silent (trace (transcribeAudio W blob)))
    by apply transcribeAudio_silent.
  simpl.
  constructor; [left; reflexivity|].
  constructor; [right; left; reflexivity|].
  unfold afterTranscription.
  destruct (result (transcribeAudio W blob)) as [v|e|].
  - destruct (asTranscript v) as [[|segment rest]|]; simpl.
    + constructor; [right; right; reflexivity|constructor].
    + rewrite statusesSet_app, (statusesSet_silent _ (summarizeText_silent W _)).
      destruct (result (summarizeText W (segment :: rest))); simpl.
      * constructor; [right; right; reflexivity|constructor].
      * constructor; [left; reflexivity|constructor].
      * constructor.
    + constructor.
  - simpl. constructor; [left; reflexivity|constructor].
  - constructor.
Qed.

Lemma apply_status : forall s e,
  pipelineStatus (status s) ->
  assignsPipelineStatus [e] ->
  pipelineStatus (status (apply s e)).
Proof.
  intros s e Hs He. destruct e; simpl; try assumption.
  unfold assignsPipelineStatus in He. simpl in He. now inversion He.
Qed.

Lemma assigns_tail : forall e rest,
  assignsPipelineStatus (e :: rest) ->
  assignsPipelineStatus [e] /\ assignsPipelineStatus rest.
Proof.
  unfold assignsPipelineStatus. intros e rest H.
  destruct e; simpl in *; try (split; [constructor|assumption]).
  inversion H; subst. split; [constructor; [assumption|constructor]|assumption].
Qed.

Lemma copiedSetter_assigns : forall type b, assignsPipelineStatus [copiedSetter type b].
Proof. intros [|] b; constructor. Qed.

(** C9: in every reachable state of the application the status of the
    pipeline is [IDLE], [PROCESSING] or [DONE], and no continuation that is
    waiting is going to assign anything else: [RECORDING] is never assigned
    to it. Whether a recording is going on is the boolean [isRecording] of
    the hook, a separate cell that no step of the pipeline writes. *)
Theorem status_is_never_recording : forall sys : System,
  Reachable sys ->
  (status (app sys) = IDLE \/ status (app sys) = PROCESSING \/ status (app sys) = DONE)
  /\ status (app sys) <> RECORDING
  /\ Forall assignsPipelineStatus (pending sys).
Proof.
  intros sys Hreach.
  assert (Hinv : pipelineStatus (status (app sys))
                 /\ Forall assignsPipelineStatus (pending sys)).
  { induction Hreach as [|sys sys' Hreach [IHs IHp] Hstep].
    - split; [left; reflexivity|constructor].
    - destruct Hstep; simpl.
      + split; assumption.
      + split; assumption.
      + split; assumption.
      + split; [assumption|].
        apply Forall_app. split; [assumption|].
        constructor; [apply run_statuses|constructor].
      + split; [assumption|].
        apply Forall_app. split; [assumption|].
        constructor; [apply run_statuses|constructor].
      + split; [apply apply_status; [assumption|apply copiedSetter_assigns]|].
        apply Forall_app. split; [assumption|].
        constructor; [apply copiedSetter_assigns|constructor].
      + rewrite H in IHp.
        apply Forall_app in IHp as [Hbefore Hrest].
        inversion Hrest as [|k ks Hk Hafter]; subst.
        apply assigns_tail in Hk as [He Hk].
        split; [now apply apply_status|].
        apply Forall_app. split; [assumption|]. now constructor. }
  destruct Hinv as [Hs Hp].
  split; [exact Hs|]. split; [|exact Hp].
  destruct Hs as [H|[H|H]]; rewrite H; discriminate.
Qed.

Lemma advance_reachable : forall sys, Reachable sys -> Reachable (advance sys).
Proof.
  intros sys H. unfold advance.
  destruct (pending sys) as [|[|e rest] after] eqn:Hp; try assumption.
  apply reach_step with (sys := sys); [assumption|].
  apply (progress [] e rest after sys). exact Hp.
Qed.

Lemma iter_advance_reachable : forall n sys,
  Reachable sys -> Reachable (Nat.iter n advance sys).
Proof.
  induction n as [|n IH]; intros sys H; simpl; [assumption|].
  apply advance_reachable, IH, H.
Qed.

Lemma uploading_reachable : Reachable Sample.uploading.
Proof.
  apply iter_advance_reachable.
  apply reach_step with (sys := initialSystem); [apply reach_initial|].
  apply (chooseFile Sample.summaryFailsWorld Sample.recordedAudio initialSystem).
Qed.

Lemma status_is_never_recording_witness :
  Reachable Sample.uploading
  /\ status (app Sample.uploading) = PROCESSING
  /\ status (app Sample.uploading) <> RECORDING.
Proof.
  split; [exact uploading_reachable|].
  split; [reflexivity|].
  exact (proj1 (proj2 (status_is_never_recording Sample.uploading uploading_reachable))).
Defined.

(** * Further properties of the source files *)

(** ** [blobToBase64] and [transcribeAudio] *)

Lemma split_lacking : forall c s, lacks c s = true -> split c s = [s].
Proof.
  induction s as [|x s IH]; intros H; [reflexivity|].
  simpl in H. apply andb_true_iff in H as [Hx Hs]. apply negb_true_iff in Hx.
  cbn [split]. rewrite Hx, (IH Hs). reflexivity.
Qed.

Lemma split_at_first : forall c a b,
  lacks c a = true -> split c (a ++ String c b) = a :: split c b.
Proof.
  induction a as [|x a IH]; intros b H.
  - cbn [append split]. now rewrite Ascii.eqb_refl.
  - simpl in H. apply andb_true_iff in H as [Hx Ha]. apply negb_true_iff in Hx.
    change (String x a ++ String c b) with (String x (a ++ String c b)).
    cbn [split]. rewrite Hx, (IH b Ha). reflexivity.
Qed.

(** X1: [blobToBase64] resolves with the part of the data URL after its comma
    when neither the header before the comma nor the payload after it holds
    another comma, after reading the blob once; a reader result without any
    comma makes it resolve with [undefined]. *)
Theorem blobToBase64_payload : forall (W : World) (blob : Blob) (header payload : string),
  readAsDataURL W blob = Returns (header ++ "," ++ payload) ->
  lacks "," header = true ->
  lacks "," payload = true ->
  blobToBase64 W blob = ([FileRead blob], Ok (Some payload))
  /\ (forall W' url, readAsDataURL W' blob = Returns url -> lacks "," url = true ->
        blobToBase64 W' blob = ([FileRead blob], Ok None)).
Proof.
  intros W blob header payload Hread Hh Hp. split.
  - unfold blobToBase64. rewrite Hread. run_async.
    rewrite (split_at_first "," header payload Hh), (split_lacking "," payload Hp).
    reflexivity.
  - intros W' url Hread' Hurl. unfold blobToBase64. rewrite Hread'. run_async.
    rewrite (split_lacking "," url Hurl). reflexivity.
Qed.

Lemma blobToBase64_payload_witness :
  readAsDataURL Sample.offlineWorld Sample.recordedAudio
    = Returns ("data:audio/webm;base64" ++ "," ++ "AQID")
  /\ blobToBase64 Sample.offlineWorld Sample.recordedAudio
     = ([FileRead Sample.recordedAudio], Ok (Some "AQID")).
Proof.
  split; [vm_compute; reflexivity|].
  exact (proj1 (blobToBase64_payload Sample.offlineWorld Sample.recordedAudio
                  "data:audio/webm;base64" "AQID" eq_refl eq_refl eq_refl)).
Defined.

(** X2: [transcribeAudio] sends exactly one request when the blob can be read,
    built from the blob's type and the payload of its data URL, and no request
    at all when it cannot; it never sends a second one, whatever the answer. *)
Theorem transcribeAudio_sends_one_request : forall (W : World) (blob : Blob),
  networkCalls (trace (transcribeAudio W blob)) =
  match readAsDataURL W blob with
  | Returns url => [transcriptionRequest blob (nth_error (split "," url) 1)]
  | Throws _ => []
  end.
Proof.
  intros W blob. rewrite transcribeAudio_answer. unfold answer.
  destruct (readAsDataURL W blob) as [url|e]; [|reflexivity].
  cbv zeta.
  destruct (generateContent W _) as [response|e]; [|reflexivity].
  destruct (JSON_parse W _) as [v|e]; reflexivity.
Qed.

(** ** [summarizeText] *)

(** [summarizeText] on a non-empty transcript, by the answer to its request. *)
Lemma summarizeText_outcome : forall (W : World) (segment : TranscriptSegment) (rest : Transcript),
  summarizeText W (segment :: rest) =
  match generateContent W (summarizationRequest (segment :: rest)) with
  | Returns response =>
      ([NetworkCall (summarizationRequest (segment :: rest))], Ok (response_text response))
  | Throws e =>
      ([NetworkCall (summarizationRequest (segment :: rest));
        ConsoleError "Error summarizing text:" e],
       Fails (ErrorObject summarizationFailedMessage))
  end.
Proof.
  intros W segment rest. unfold summarizeText.
  change (Nat.eqb (length (segment :: rest)) 0) with false. cbv iota.
  run_async.
  destruct (generateContent W (summarizationRequest (segment :: rest))); reflexivity.
Qed.


(** ** [handleProcessAudio]: the runs that succeed, and all runs *)

Lemma handleProcessAudio_result : forall W blob,
  result (handleProcessAudio W blob) =
  match result (transcribeAudio W blob) with
  | Ok v =>
      match asTranscript v with
      | Some _ => Ok tt
      | None => IllTyped
      end
  | Fails _ => Ok tt
  | IllTyped => IllTyped
  end.
Proof.
  intros W blob. unfold handleProcessAudio.
  destruct (transcribeAudio W blob) as [tr [v|e|]]; run_async; try reflexivity.
  destruct (asTranscript v) as [[|segment rest]|]; simpl; try reflexivity.
  rewrite summarizeText_outcome.
  destruct (generateContent W (summarizationRequest (segment :: rest))); reflexivity.
Qed.

(** X4: a run whose transcription gives a non-empty transcript and whose
    summarization request succeeds ends in [DONE] with that transcript, the
    model's text as the summary and no error; both result cards are
    rendered; the statuses assigned are [IDLE], [PROCESSING], [DONE] in that
    order; and the requests sent are those of the transcription followed by
    the one summarization request. *)
Theorem successful_run : forall (W : World) (blob : Blob) (s : AppState) (v : Value)
    (segment : TranscriptSegment) (rest : Transcript) (response : GenerateContentResponse),
  result (transcribeAudio W blob) = Ok v ->
  asTranscript v = Some (segment :: rest) ->
  generateContent W (summarizationRequest (segment :: rest)) = Returns response ->
  afterRun W blob s
    = mkApp DONE (segment :: rest) (response_text response) "" false false
  /\ result (handleProcessAudio W blob) = Ok tt
  /\ resultsShown (afterRun W blob s) = Some (segment :: rest, response_text response)
  /\ errorShown (afterRun W blob s) = None
  /\ statusesSet (trace (handleProcessAudio W blob)) = [IDLE; PROCESSING; DONE]
  /\ networkCalls (trace (handleProcessAudio W blob))
     = (networkCalls (trace (transcribeAudio W blob))
        ++ [summarizationRequest (segment :: rest)])%list.
Proof.
  intros W blob s v segment rest response Hv Ht Hsum.
  assert (Hafter : afterTranscription W (result (transcribeAudio W blob))
    = [SetTranscript (segment :: rest);
       NetworkCall (summarizationRequest (segment :: rest));
       SetSummary (response_text response); SetStatus DONE]).
  { rewrite Hv. unfold afterTranscription. rewrite Ht, summarizeText_outcome, Hsum.
    reflexivity. }
  assert (Hs : afterRun W blob s
    = mkApp DONE (segment :: rest) (response_text response) "" false false)
    by (rewrite afterRun_afterTranscription, Hafter; reflexivity).
  rewrite Hs.
  split; [reflexivity|].
  split; [rewrite handleProcessAudio_result, Hv, Ht; reflexivity|].
  split; [reflexivity|]. split; [reflexivity|].
  rewrite handleProcessAudio_trace, Hafter.
  change (SetStatus PROCESSING :: ?l)%list with ([SetStatus PROCESSING] ++ l)%list.
  rewrite !statusesSet_app, !networkCalls_app.
  rewrite (statusesSet_silent (trace (transcribeAudio W blob)))
    by apply transcribeAudio_silent.
  split; reflexivity.
Qed.

Lemma successful_run_witness :
  result (transcribeAudio meetingWorld Sample.recordedAudio)
    = Ok (JArray [JObject [("text", JString "สวัสดี");
                           ("startTime", JString "00:00:00");
                           ("endTime", JString "00:00:02")]])
  /\ afterRun meetingWorld Sample.recordedAudio initialApp
     = mkApp DONE [Sample.greeting] "- ทักทาย" "" false false.
Proof.
  split; [vm_compute; reflexivity|].
  exact (proj1 (successful_run meetingWorld Sample.recordedAudio initialApp
                  (JArray [JObject [("text", JString "สวัสดี");
                                    ("startTime", JString "00:00:00");
                                    ("endTime", JString "00:00:02")]])
                  Sample.greeting [] (mkResponse "- ทักทาย")
                  eq_refl eq_refl eq_refl)).
Defined.

(** X5: what a run leaves does not depend on the state it starts from: every
    field is written by the reset before anything else happens, so nothing
    of an earlier run (transcript, summary, error, copied marks) survives
    into the state after a new run. *)
Theorem run_forgets_previous_state : forall (W : World) (blob : Blob) (s s' : AppState),
  afterRun W blob s = afterRun W blob s'.
Proof.
  intros W blob s s'. now rewrite !afterRun_afterTranscription.
Qed.

(** X8: for a run whose parsed response, if any, is of the transcript type,
    the result cards are rendered afterwards only when the run succeeded on a
    non-empty transcript, and then they show that transcript and the model's
    summary. *)
Theorem results_rendered_only_after_success : forall (W : World) (blob : Blob) (s : AppState)
    (shown : Transcript * string),
  (forall v, result (transcribeAudio W blob) = Ok v -> asTranscript v <> None) ->
  resultsShown (afterRun W blob s) = Some shown ->
  exists v segment rest response,
    result (transcribeAudio W blob) = Ok v
    /\ asTranscript v = Some (segment :: rest)
    /\ generateContent W (summarizationRequest (segment :: rest)) = Returns response
    /\ shown = (segment :: rest, response_text response).
Proof.
  intros W blob s shown Htype. rewrite afterRun_afterTranscription. unfold afterTranscription.
  destruct (result (transcribeAudio W blob)) as [v|e|] eqn:Hv;
    [|destruct e; discriminate|discriminate].
  destruct (asTranscript v) as [[|segment rest]|] eqn:Ht; try discriminate.
  rewrite summarizeText_outcome.
  destruct (generateContent W (summarizationRequest (segment :: rest)))
    as [response|e] eqn:Hsum; try discriminate.
  intros H. exists v, segment, rest, response.
  repeat split; try assumption; try reflexivity.
  simpl in H. now inversion H.
Qed.

Lemma results_rendered_only_after_success_witness :
  (forall v, result (transcribeAudio meetingWorld Sample.recordedAudio) = Ok v ->
             asTranscript v <> None)
  /\ resultsShown (afterRun meetingWorld Sample.recordedAudio initialApp)
     = Some ([Sample.greeting], "- ทักทาย")
  /\ exists v segment rest response,
       result (transcribeAudio meetingWorld Sample.recordedAudio) = Ok v
       /\ asTranscript v = Some (segment :: rest)
       /\ generateContent meetingWorld (summarizationRequest (segment :: rest))
          = Returns response
       /\ ([Sample.greeting], "- ทักทาย") = (segment :: rest, response_text response).
Proof.
  assert (Htype : forall v,
            result (transcribeAudio meetingWorld Sample.recordedAudio) = Ok v ->
            asTranscript v <> None).
  { intros v Hv. vm_compute in Hv. inversion Hv; subst. vm_compute. discriminate. }
  assert (H : resultsShown (afterRun meetingWorld Sample.recordedAudio initialApp)
              = Some ([Sample.greeting], "- ทักทาย")) by (vm_compute; reflexivity).
  split; [exact Htype|]. split; [exact H|].
  exact (results_rendered_only_after_success meetingWorld Sample.recordedAudio
           initialApp ([Sample.greeting], "- ทักทาย") Htype H).
Defined.

(** X9: a run on audio in which nothing was transcribed ends in [DONE] with the
    placeholder summary stored, and renders nothing: no result card, because
    the cards need a non-empty transcript, and no error message. *)
Theorem empty_transcript_shows_nothing : forall (W : World) (blob : Blob) (s : AppState),
  result (transcribeAudio W blob) = Ok (JArray []) ->
  status (afterRun W blob s) = DONE
  /\ summary (afterRun W blob s) = noTranscriptSummary
  /\ resultsShown (afterRun W blob s) = None
  /\ errorShown (afterRun W blob s) = None.
Proof.
  intros W blob s H. rewrite afterRun_afterTranscription, H.
  repeat split; reflexivity.
Qed.

Lemma empty_transcript_shows_nothing_witness :
  result (transcribeAudio Sample.silenceWorld Sample.recordedAudio) = Ok (JArray [])
  /\ resultsShown (afterRun Sample.silenceWorld Sample.recordedAudio initialApp) = None
  /\ errorShown (afterRun Sample.silenceWorld Sample.recordedAudio initialApp) = None.
Proof.
  split; [vm_compute; reflexivity|].
  exact (proj2 (proj2 (empty_transcript_shows_nothing Sample.silenceWorld
                         Sample.recordedAudio initialApp eq_refl))).
Defined.

(** ** [formatTranscript]: how it composes, and its lines *)

(** X10: the text of a transcript cut in two is the text of the first part, the
    separator of the mode, and the text of the second; the empty transcript
    gives the empty text, and a single segment the same text in both modes,
    with no separator at either end. *)
Theorem formatTranscript_compose : forall (a : TranscriptSegment) (t1 : Transcript)
    (b : TranscriptSegment) (t2 : Transcript) (forFile : bool),
  formatTranscript ((a :: t1) ++ b :: t2)%list forFile
    = formatTranscript (a :: t1) forFile
      ++ (if forFile then LF else LF ++ LF)
      ++ formatTranscript (b :: t2) forFile
  /\ formatTranscript [] forFile = ""
  /\ formatTranscript [a] forFile = formatSegment a.
Proof.
  intros a t1 b t2 forFile. unfold formatTranscript.
  split; [|split; reflexivity].
  rewrite map_app. simpl map. apply join_app.
Qed.

Lemma oneLine_append : forall a b,
  Spec.oneLine (a ++ b) = Spec.oneLine a && Spec.oneLine b.
Proof.
  induction a as [|c a IH]; intros b; simpl; [reflexivity|].
  now rewrite IH, andb_assoc.
Qed.

Lemma formatSegment_oneLine : forall segment,
  oneLineSegment segment = true -> Spec.oneLine (formatSegment segment) = true.
Proof.
  intros [sp t st et]. unfold oneLineSegment, formatSegment.
  cbn [speaker text startTime endTime]. intros H.
  apply andb_true_iff in H as [H Ht]. apply andb_true_iff in H as [H Hsp].
  apply andb_true_iff in H as [Hst Het].
  rewrite !oneLine_append, Hst, Het, Ht.
  destruct sp as [sp|]; [|reflexivity].
  destruct (truthy sp); [|reflexivity].
  rewrite oneLine_append, Hsp. reflexivity.
Qed.

(** X11: when no field of any segment holds a line feed, the exported text has
    exactly one line per segment: cut at its line feeds it gives the
    formatted segments back, as many as the transcript has and in its order. *)
Theorem export_has_one_line_per_segment : forall (segment : TranscriptSegment) (rest : Transcript),
  forallb oneLineSegment (segment :: rest) = true ->
  split (ascii_of_nat 10) (formatTranscript (segment :: rest) true)
    = map formatSegment (segment :: rest)
  /\ length (split (ascii_of_nat 10) (formatTranscript (segment :: rest) true))
     = length (segment :: rest).
Proof.
  intros segment rest H.
  assert (Hsplit : split (ascii_of_nat 10) (formatTranscript (segment :: rest) true)
                   = map formatSegment (segment :: rest)).
  { unfold formatTranscript. rewrite join_separated. simpl map.
    apply split_separated.
    change (forallb Spec.oneLine (map formatSegment (segment :: rest)) = true).
    rewrite forallb_forall in *. intros x Hx.
    apply in_map_iff in Hx as (seg & <- & Hin).
    apply formatSegment_oneLine, H, Hin. }
  split; [exact Hsplit|]. rewrite Hsplit. apply length_map.
Qed.

Lemma export_has_one_line_per_segment_witness :
  forallb oneLineSegment dialogue = true
  /\ split (ascii_of_nat 10) (formatTranscript dialogue true)
     = [ "[00:00:00 - 00:00:02] ผู้พูด 1: สวัสดี";
         "[00:00:02 - 00:00:05] ผู้พูด 2: สวัสดีครับ" ].
Proof.
  split; [reflexivity|].
  exact (proj1 (export_has_one_line_per_segment
                  (mkSegment (Some "ผู้พูด 1") "สวัสดี" "00:00:00" "00:00:02")
                  [mkSegment (Some "ผู้พูด 2") "สวัสดีครับ" "00:00:02" "00:00:05"]
                  eq_refl)).
Defined.

(** ** [useAudioRecorder]: before the first recorder, and in every history *)

(** X12: until a call of [startRecording] is granted the microphone, nothing
    changes the hook: denied starts, calls of [stopRecording] and stray
    recorder events all leave it as it was at mount. In particular
    [stopRecording] before any recorder exists does nothing. *)
Theorem hook_is_inert_until_granted : forall evs : list AudioRecorder.Event,
  withinCycle evs = true -> run initialHook evs = initialHook.
Proof.
  induction evs as [|ev evs IH]; intros H; [reflexivity|].
  unfold withinCycle in H. simpl in H.
  apply andb_true_iff in H as [Hev Hevs]. apply negb_true_iff in Hev.
  change (run initialHook (ev :: evs)) with (run (step initialHook ev) evs).
  assert (Hstep : step initialHook ev = initialHook).
  { destruct ev as [env| |r data|r]; try reflexivity.
    simpl in *. unfold startRecording.
    destruct (getUserMedia env); [discriminate|reflexivity]. }
  rewrite Hstep. exact (IH Hevs).
Qed.

Lemma hook_is_inert_until_granted_witness :
  withinCycle [CallStop; CallStart Sample.deniedEnv; DataAvailable 0 (Some (Sample.chunk [x01]));
               Stop 0; CallStop] = true
  /\ run initialHook
       [CallStop; CallStart Sample.deniedEnv; DataAvailable 0 (Some (Sample.chunk [x01]));
        Stop 0; CallStop] = initialHook.
Proof.
  split; [reflexivity|].
  exact (hook_is_inert_until_granted
           [CallStop; CallStart Sample.deniedEnv; DataAvailable 0 (Some (Sample.chunk [x01]));
            Stop 0; CallStop] eq_refl).
Defined.

Lemma repeat_stop_without_ref : forall n h,
  mediaRecorderRef h = None -> run h (repeat CallStop n) = h.
Proof.
  induction n as [|n IH]; intros h H; [reflexivity|].
  change (run h (repeat CallStop (S n))) with (run (step h CallStop) (repeat CallStop n)).
  assert (Hstep : step h CallStop = h) by (simpl; unfold stopRecording; now rewrite H).
  rewrite Hstep. exact (IH h H).
Qed.

(** X13: [setIsRecording(true)] comes before the recorder is constructed. When the
    microphone is granted and the constructor throws (a MIME type the browser
    does not record), the call reports the microphone alert, constructs no
    recorder and leaves [isRecording] on; with no recorder to stop, no number
    of calls of [stopRecording] turns it off again. *)
Theorem unsupported_recorder_leaves_flag_on : forall (h0 : Hook) (e : Thrown),
  mediaRecorderRef h0 = None ->
  isRecording (fst (startRecording (unsupportedEnv e) h0)) = true
  /\ recorders (fst (startRecording (unsupportedEnv e) h0)) = recorders h0
  /\ snd (startRecording (unsupportedEnv e) h0)
     = [ConsoleError "Failed to get user media" e; Alert microphoneAlert]
  /\ (forall n, isRecording (run (fst (startRecording (unsupportedEnv e) h0))
                                 (repeat CallStop n)) = true).
Proof.
  intros h0 e Href.
  repeat split; try reflexivity.
  intros n. rewrite repeat_stop_without_ref; [reflexivity|exact Href].
Qed.

Lemma unsupported_recorder_leaves_flag_on_witness :
  mediaRecorderRef initialHook = None
  /\ isRecording (run initialHook
                    [CallStart (unsupportedEnv (ErrorObject "NotSupportedError"));
                     CallStop; CallStop]) = true.
Proof.
  split; [reflexivity|].
  exact (proj2 (proj2 (proj2
    (unsupported_recorder_leaves_flag_on initialHook (ErrorObject "NotSupportedError")
       eq_refl))) 2).
Defined.

Lemma refNamesLast_length : forall h,
  refNamesLast h <-> mediaRecorderRef h = lastIndex (length (recorders h)).
Proof.
  intros h. unfold refNamesLast.
  destruct (recorders h) as [|m ms]; simpl; [reflexivity|].
  now rewrite Nat.sub_0_r.
Qed.

Lemma step_refNamesLast : forall h ev, refNamesLast h -> refNamesLast (step h ev).
Proof.
  intros h ev H. apply refNamesLast_length in H. apply refNamesLast_length.
  destruct ev as [env| |r data|r]; simpl.
  - unfold startRecording.
    destruct (getUserMedia env); [|assumption].
    destruct (setup env); simpl; [assumption| |];
      rewrite length_app, Nat.add_1_r; reflexivity.
  - unfold stopRecording.
    destruct (mediaRecorderRef h) as [r|] eqn:Href; [|now rewrite Href].
    destruct (nth_error (recorders h) r) as [[[|] live]|]; simpl;
      rewrite ?update_length, ?Href; assumption.
  - destruct (Nat.ltb r (length (recorders h))); [|assumption].
    unfold onDataAvailable. destruct data as [chunk|]; [|assumption].
    destruct (Nat.eqb (size chunk) 0); assumption.
  - destruct (Nat.ltb r (length (recorders h))); [|assumption].
    simpl. now rewrite update_length.
Qed.

(** X14: in every history of the hook, [mediaRecorderRef] holds nothing exactly
    while no recorder has been constructed, and otherwise names the recorder
    constructed last, which exists: [stopRecording] always acts on the newest
    recorder and never on a missing one. *)
Theorem ref_names_the_last_recorder : forall evs : list AudioRecorder.Event,
  refNamesLast (run initialHook evs)
  /\ (forall r, mediaRecorderRef (run initialHook evs) = Some r ->
        S r = length (recorders (run initialHook evs))
        /\ exists m, nth_error (recorders (run initialHook evs)) r = Some m).
Proof.
  intros evs.
  assert (H : forall h, refNamesLast h -> refNamesLast (run h evs)).
  { induction evs as [|ev evs IH]; intros h Hh; [assumption|].
    change (run h (ev :: evs)) with (run (step h ev) evs).
    apply IH, step_refNamesLast, Hh. }
  specialize (H initialHook eq_refl).
  split; [exact H|].
  intros r Hr. apply refNamesLast_length in H. rewrite Hr in H.
  destruct (length (recorders (run initialHook evs))) as [|n] eqn:Hlen; [discriminate|].
  injection H as ->. split; [reflexivity|].
  destruct (nth_error (recorders (run initialHook evs)) n) as [m|] eqn:Hnth; [eauto|].
  apply nth_error_None in Hnth. lia.
Qed.

(** X15: what one event can change in the hook: the delivered payload changes
    only at a granted start (cleared) or at the "stop" event of a constructed
    recorder (set); [isRecording] changes only at a granted start or a call
    of [stopRecording]; the chunk buffer changes only at a granted start or
    a "dataavailable" event. A call of [stopRecording] itself delivers no
    payload, and a denied start drops none. *)
Theorem hook_frame : forall (h : Hook) (ev : AudioRecorder.Event),
  (audioBlob (step h ev) = audioBlob h
   \/ grantedStart ev = true \/ isStopEvent h ev = true)
  /\ (isRecording (step h ev) = isRecording h
      \/ grantedStart ev = true \/ ev = CallStop)
  /\ (audioChunksRef (step h ev) = audioChunksRef h
      \/ grantedStart ev = true \/ exists r data, ev = DataAvailable r data).
Proof.
  intros h ev. destruct ev as [env| |r data|r]; simpl.
  - unfold startRecording.
    destruct (getUserMedia env); repeat split; auto.
  - unfold stopRecording.
    destruct (mediaRecorderRef h) as [r|]; [|repeat split; auto].
    destruct (nth_error (recorders h) r) as [[[|] live]|]; repeat split; auto.
  - destruct (Nat.ltb r (length (recorders h))); [|repeat split; auto].
    unfold onDataAvailable. destruct data as [chunk|]; [|repeat split; auto].
    destruct (Nat.eqb (size chunk) 0); repeat split; eauto.
  - destruct (Nat.ltb r (length (recorders h))); repeat split; auto.
Qed.

(** * Runs on every value the transcription can return *)

Ltac untyped_unfold :=
  unfold Untyped.afterRun, Untyped.handleProcessAudio, Untyped.tryBlock,
    Untyped.storedTranscript in *.

Ltac untyped_compute :=
  unfold Untyped.hasSegments, Untyped.summarizeText, Untyped.catchBlock,
    Untyped.lift, Untyped.try_catch, Untyped.bind, Untyped.emit,
    Untyped.setTranscript, Untyped.complete, Untyped.evaluate, Untyped.ret,
    Untyped.throw, Untyped.trace, Untyped.result, Untyped.applyAll,
    Untyped.errorShown, Untyped.cardsAllowed, Async.trace, Async.result in *;
  simpl in *.

(** Every way a run can go: the answer to the transcription, then the type
    of the parsed value, then the request of the summarization or, on a value
    that is no transcript, what the engine makes of the three expressions. *)
Ltac untyped_cases W E blob :=
  untyped_unfold; rewrite ?transcribeAudio_answer in *;
  destruct (answer W blob) as [?e0|?request ?e0|?request ?e0|?request ?v] eqn:?Hanswer;
  untyped_compute;
  [ | | |
    destruct (asTranscript _) as [[|?segment ?rest]|] eqn:?Htyped; simpl in *;
    [ | rewrite ?summarizeText_outcome in *;
        destruct (generateContent W (summarizationRequest _)) as [?response|?e1] eqn:?Hsum;
        simpl in *
      | destruct (Untyped.branchCondition E _) as [[|]|?m] eqn:?Hcond; simpl in *;
        [ destruct (Untyped.emptyCondition E _) eqn:?Hempty; simpl in *;
          [ | destruct (Untyped.joinedTexts E _) as [?doc|?m] eqn:?Hdoc; simpl in *;
              [ destruct (generateContent W (Untyped.promptRequest _))
                  as [?response|?e1] eqn:?Hsum; simpl in * | ] ]
        | | ] ] ].

Lemma asTranscript_encode : forall t, asTranscript (Untyped.encode t) = Some t.
Proof.
  unfold Untyped.encode, asTranscript.
  induction t as [|[[sp|] tx st et] t IH]; [reflexivity| |];
    cbn [map asSegments]; rewrite IH; reflexivity.
Qed.

(** On a parsed response of the transcript type the engine is not asked. *)
Lemma engine_is_unasked_when_typed : forall W E E' blob,
  (forall v, result (transcribeAudio W blob) = Ok v -> asTranscript v <> None) ->
  Untyped.handleProcessAudio W E blob = Untyped.handleProcessAudio W E' blob.
Proof.
  intros W E E' blob H.
  unfold Untyped.handleProcessAudio, Untyped.tryBlock.
  rewrite transcribeAudio_answer in *.
  destruct (answer W blob) as [e0|request e0|request e0|request v]; try reflexivity.
  specialize (H v eq_refl).
  unfold Untyped.hasSegments, Untyped.summarizeText, Untyped.lift, Untyped.bind. simpl.
  destruct (asTranscript v); [reflexivity|congruence].
Qed.

(** The typed embedding and the one on values agree on every run whose
    parsed response, if any, is of the transcript type: same status, summary
    and error, and the stored value reads as the stored transcript. *)
Lemma typed_run_agrees : forall W E blob s s',
  (forall v, result (transcribeAudio W blob) = Ok v -> asTranscript v <> None) ->
  Untyped.statusCell (Untyped.afterRun W E blob s') = status (afterRun W blob s)
  /\ Untyped.summaryCell (Untyped.afterRun W E blob s') = summary (afterRun W blob s)
  /\ Untyped.errorCell (Untyped.afterRun W E blob s') = error (afterRun W blob s)
  /\ asTranscript (Untyped.transcriptCell (Untyped.afterRun W E blob s'))
     = Some (transcript (afterRun W blob s)).
Proof.
  intros W E blob s s' Htype.
  rewrite afterRun_afterTranscription. unfold afterTranscription.
  untyped_cases W E blob;
    try (exfalso; apply (Htype _ eq_refl); assumption);
    repeat split; try reflexivity; try assumption.
Qed.

(** A failed step of a run, as [FailedRun] has it, makes the [try] block
    throw what the step threw, whatever the engine; and the value stored
    reads as the transcript the run had obtained. *)
Lemma failed_step_fails_the_try_block : forall W E blob kept e,
  FailedRun W blob kept e ->
  Untyped.result (Untyped.tryBlock W E blob) = Fails e
  /\ asTranscript (Untyped.storedTranscript W blob) = Some kept.
Proof.
  intros W E blob kept e [e' H | v t e' Hv Ht He].
  - untyped_cases W E blob; try discriminate H;
      inversion H; subst; (split; reflexivity).
  - destruct t as [|segment rest]; [discriminate He|].
    untyped_unfold. rewrite transcribeAudio_answer in *.
    destruct (answer W blob) as [e0|request e0|request e0|request v0];
      try discriminate Hv.
    inversion Hv; subst v0.
    untyped_compute. rewrite Ht. simpl.
    rewrite summarizeText_outcome in *.
    destruct (generateContent W (summarizationRequest (segment :: rest)));
      simpl in *; [discriminate He|].
    inversion He; subst. split; reflexivity.
Qed.

(** C1, amended: for every run, whatever value the transcription resolves
    with, if either step fails (if anything in the [try] block throws: the
    transcription, the summarization, or the engine on a parsed response that
    is no transcript), the thrown value is an [Error]; the run ends with
    status [IDLE], the error message made of the processing prefix and the
    message of that error, and the empty summary of the reset; the error is
    displayed and no result card is rendered, since the cards are rendered
    in status [DONE] only. The stored transcript is the empty array of the
    reset when the transcription failed, with the transcription-failed
    message; when the transcription succeeded it is the value the
    transcription resolved with, which is kept in the state, and for a value
    of the transcript type the message is the summarization-failed one. *)
Theorem failed_run_state : forall (W : World) (E : Untyped.Engine) (blob : Blob)
    (s : Untyped.AppState) (e : Thrown),
  Untyped.result (Untyped.tryBlock W E blob) = Fails e ->
  exists message,
    e = ErrorObject message
    /\ Untyped.afterRun W E blob s
       = Untyped.mkApp IDLE (Untyped.storedTranscript W blob) ""
           (processingErrorPrefix ++ message) false false
    /\ Untyped.errorShown (Untyped.afterRun W E blob s)
       = Some (processingErrorPrefix ++ message)
    /\ Untyped.cardsAllowed (Untyped.afterRun W E blob s) = false
    /\ (forall e', result (transcribeAudio W blob) = Fails e' ->
          message = transcriptionFailedMessage
          /\ Untyped.storedTranscript W blob = JArray [])
    /\ (forall v, result (transcribeAudio W blob) = Ok v ->
          Untyped.storedTranscript W blob = v
          /\ (forall t, asTranscript v = Some t ->
                message = summarizationFailedMessage /\ t <> [])).
Proof.
  intros W E blob s e H.
  untyped_cases W E blob; try discriminate H;
    inversion H; subst; eexists; (split; [reflexivity|]);
    repeat split; try reflexivity; try discriminate;
    try (intros; congruence).
Qed.

Lemma failed_run_state_witness :
  Untyped.result (Untyped.tryBlock Sample.summaryFailsWorld Untyped.unaskedEngine
                    Sample.recordedAudio)
    = Fails (ErrorObject summarizationFailedMessage)
  /\ exists message,
       ErrorObject summarizationFailedMessage = ErrorObject message
       /\ Untyped.afterRun Sample.summaryFailsWorld Untyped.unaskedEngine
            Sample.recordedAudio Untyped.initialApp
          = Untyped.mkApp IDLE
              (Untyped.storedTranscript Sample.summaryFailsWorld Sample.recordedAudio) ""
              (processingErrorPrefix ++ message) false false.
Proof.
  assert (H : Untyped.result (Untyped.tryBlock Sample.summaryFailsWorld
                                Untyped.unaskedEngine Sample.recordedAudio)
              = Fails (ErrorObject summarizationFailedMessage))
    by (vm_compute; reflexivity).
  split; [exact H|].
  destruct (failed_run_state Sample.summaryFailsWorld Untyped.unaskedEngine
              Sample.recordedAudio Untyped.initialApp
              (ErrorObject summarizationFailedMessage) H)
    as (message & He & Hs & _).
  exists message. split; [exact He | exact Hs].
Defined.

(** X6: the promise of [handleProcessAudio] never rejects and the run always
    completes, whatever value the transcription resolves with: every error
    is caught. The run leaves either [DONE] with no error, when nothing in
    the [try] block threw, or [IDLE] with an error and the empty summary,
    when something did; nothing in between. *)
Theorem run_settles : forall (W : World) (E : Untyped.Engine) (blob : Blob)
    (s : Untyped.AppState),
  Untyped.result (Untyped.handleProcessAudio W E blob) = Ok tt
  /\ (Untyped.result (Untyped.tryBlock W E blob) = Ok tt
      /\ Untyped.statusCell (Untyped.afterRun W E blob s) = DONE
      /\ Untyped.errorCell (Untyped.afterRun W E blob s) = ""
      \/ (exists e, Untyped.result (Untyped.tryBlock W E blob) = Fails e)
         /\ Untyped.statusCell (Untyped.afterRun W E blob s) = IDLE
         /\ Untyped.errorCell (Untyped.afterRun W E blob s) <> ""
         /\ Untyped.summaryCell (Untyped.afterRun W E blob s) = "").
Proof.
  intros W E blob s.
  untyped_cases W E blob; (split; [reflexivity|]);
    first [ left; repeat split; reflexivity
          | right; split; [eexists; reflexivity|];
            split; [reflexivity|]; split; [discriminate|reflexivity] ].
Qed.

(** X7: whatever is thrown inside the [try] block is an [Error] instance, so
    the [catch] block never takes its fallback branch for other thrown values:
    the error a run stores is empty, or the processing prefix followed by the
    message of the thrown [Error]. For a run whose parsed response, if any,
    is of the transcript type, that message is one of the two fixed messages
    of the services. *)
Theorem fallback_message_is_never_used : forall (W : World) (E : Untyped.Engine)
    (blob : Blob) (s : Untyped.AppState),
  (forall tag, Untyped.result (Untyped.tryBlock W E blob) <> Fails (OtherValue tag))
  /\ (Untyped.errorCell (Untyped.afterRun W E blob s) = ""
      \/ exists message,
           Untyped.result (Untyped.tryBlock W E blob) = Fails (ErrorObject message)
           /\ Untyped.errorCell (Untyped.afterRun W E blob s)
              = processingErrorPrefix ++ message)
  /\ ((forall v, result (transcribeAudio W blob) = Ok v -> asTranscript v <> None) ->
      Untyped.errorCell (Untyped.afterRun W E blob s) = ""
      \/ Untyped.errorCell (Untyped.afterRun W E blob s)
         = processingErrorPrefix ++ transcriptionFailedMessage
      \/ Untyped.errorCell (Untyped.afterRun W E blob s)
         = processingErrorPrefix ++ summarizationFailedMessage).
Proof.
  intros W E blob s.
  untyped_cases W E blob; (split; [discriminate|]);
    (split; [first [left; reflexivity | right; eexists; split; reflexivity]|]);
    intros Htype;
    try (exfalso; apply (Htype _ eq_refl); assumption);
    first [left; reflexivity | right; left; reflexivity | right; right; reflexivity].
Qed.

(** ** Four responses that are no transcript

    What a run does on each, given what the engine makes of the value. *)

Ltac run_on_answer :=
  unfold Untyped.afterRun, Untyped.handleProcessAudio, Untyped.tryBlock;
  rewrite transcribeAudio_answer;
  match goal with
  | |- context [answer ?W ?blob] =>
      let a := eval vm_compute in (answer W blob) in
      replace (answer W blob) with a by (vm_compute; reflexivity)
  end;
  untyped_compute.

(** An object without the required properties: the engine takes the array
    for non-empty and joins the missing texts; the run sends both requests
    and ends in [DONE] with the value stored. *)
Lemma off_schema_run_completes : forall E doc s,
  Untyped.branchCondition E (JArray [JObject [("speaker", JString "A")]]) = Untyped.Yields true ->
  Untyped.emptyCondition E (JArray [JObject [("speaker", JString "A")]]) = false ->
  Untyped.joinedTexts E (JArray [JObject [("speaker", JString "A")]]) = Untyped.Yields doc ->
  Untyped.afterRun Sample.offSchemaWorld E Sample.recordedAudio s
    = Untyped.mkApp DONE (JArray [JObject [("speaker", JString "A")]])
        "- (สรุป)" "" false false
  /\ Untyped.requests (Untyped.trace
       (Untyped.handleProcessAudio Sample.offSchemaWorld E Sample.recordedAudio))
     = [transcriptionRequest Sample.recordedAudio (Some "AQID"); Untyped.promptRequest doc].
Proof.
  intros E doc s Hcond Hempty Hdoc. split.
  - run_on_answer. rewrite Hcond. simpl. rewrite Hempty, Hdoc. reflexivity.
  - unfold Untyped.handleProcessAudio, Untyped.tryBlock.
    rewrite transcribeAudio_answer.
    replace (answer Sample.offSchemaWorld Sample.recordedAudio)
      with (Parsed (transcriptionRequest Sample.recordedAudio (Some "AQID"))
                   (JArray [JObject [("speaker", JString "A")]]))
      by (vm_compute; reflexivity).
    untyped_compute. rewrite Hcond. simpl. rewrite Hempty, Hdoc. reflexivity.
Qed.

(** An array holding [null]: reading the text of [null] raises before the
    [try] of [summarizeText]; the run ends in [IDLE] with the engine's message
    after the prefix, and the value stays stored. *)
Lemma null_element_run_fails : forall E message s,
  Untyped.branchCondition E (JArray [JNull]) = Untyped.Yields true ->
  Untyped.emptyCondition E (JArray [JNull]) = false ->
  Untyped.joinedTexts E (JArray [JNull]) = Untyped.Raises message ->
  Untyped.afterRun Untyped.nullElementWorld E Sample.recordedAudio s
    = Untyped.mkApp IDLE (JArray [JNull]) "" (processingErrorPrefix ++ message) false false.
Proof.
  intros E message s Hcond Hempty Hdoc.
  run_on_answer. rewrite Hcond. simpl. rewrite Hempty, Hdoc. reflexivity.
Qed.

(** A string: it has a length and no [map]; the same ending. *)
Lemma string_response_run_fails : forall E message s,
  Untyped.branchCondition E (JString "abc") = Untyped.Yields true ->
  Untyped.emptyCondition E (JString "abc") = false ->
  Untyped.joinedTexts E (JString "abc") = Untyped.Raises message ->
  Untyped.afterRun Untyped.stringWorld E Sample.recordedAudio s
    = Untyped.mkApp IDLE (JString "abc") "" (processingErrorPrefix ++ message) false false.
Proof.
  intros E message s Hcond Hempty Hdoc.
  run_on_answer. rewrite Hcond. simpl. rewrite Hempty, Hdoc. reflexivity.
Qed.

(** [null]: it is falsy; the run stores it, takes the placeholder and ends in [DONE]. *)
Lemma null_response_run_completes : forall E s,
  Untyped.branchCondition E JNull = Untyped.Yields false ->
  Untyped.afterRun Untyped.nullWorld E Sample.recordedAudio s
    = Untyped.mkApp DONE JNull noTranscriptSummary "" false false.
Proof.
  intros E s Hcond.
  run_on_answer. rewrite Hcond. reflexivity.
Qed.
